(** * sc4-disable-demolition-animation: the call-site patch and its orchestration

    A shallow embedding of [DisableDemolitionAnimationDllDirector.cpp].
    The plugin is a 32-bit x86 DLL: [uintptr_t] and [void*] are 32-bit
    unsigned integers, modelled as [Z] with the wrap-around written out.
    Effectful code is written in a small state-and-exception monad over
    the process state ([World]); every call that leaves the translation
    unit (operating system, logger, version detector, host objects) is
    also recorded, in program order, in the world's [trace]. *)

From Stdlib Require Import ZArith Lia Ascii String.
From stdpp Require Import gmap strings list fin_maps.

Local Open Scope Z_scope.

(** ** Machine integers *)

Definition wrap32 (z : Z) : Z := z mod 2 ^ 32.
Definition add32 (a b : Z) : Z := wrap32 (a + b).
Definition sub32 (a b : Z) : Z := wrap32 (a - b).

(** Byte [i] (0 = least significant) of a machine word. *)
Definition byte_of (v i : Z) : Z := Z.land (Z.shiftr v (8 * i)) 255.

(** The value of four bytes read as a little-endian unsigned integer. *)
Definition le32 (b0 b1 b2 b3 : Z) : Z :=
  b0 + 2 ^ 8 * b1 + 2 ^ 16 * b2 + 2 ^ 24 * b3.

(** The same four bytes read as a signed (two's complement) integer, the
    way the processor reads the displacement of a near call. *)
Definition signed32 (u : Z) : Z := if u <? 2 ^ 31 then u else u - 2 ^ 32.

(** ** Exceptions, log lines and the trace of external calls *)

(** [wil::ResultException]; it carries the failure code the operating
    system reported through [GetLastError]. *)
Inductive Exception :=
| ResultException (win32_error : Z).

Inductive LogLevel := Debug | Info | Error.

(** An argument of a [printf]-style log call. [ArgWhat e] is [e.what()]. *)
Inductive LogArg :=
| ArgString (s : string)
| ArgInt (z : Z)
| ArgWhat (e : Exception).

Inductive Event :=
| EvGetGameVersion (v : Z)
| EvVirtualProtect (lpAddress dwSize flNewProtect : Z) (ok : bool)
| EvStore8 (addr v : Z)
| EvStore32 (addr v : Z)
| EvDeref (p : Z)
| EvLog (level : LogLevel) (format : string) (args : list LogArg).

(** ** Host objects

    The game's objects are reached through interface pointers
    ([cISC4Occupant], [cISCPropertyHolder], [cISCProperty], [cIGZVariant]);
    the headers are not part of this translation unit, so an object is
    modelled by what its methods return. A pointer is an address; the
    null pointer is 0. *)

Inductive HostObject :=
| ObjOccupant (propertyHolder : Z)
| ObjPropertyHolder (properties : gmap Z Z)
| ObjProperty (propertyValue : Z)
| ObjVariant (type : Z) (rzChar : Z)
| ObjCString (chars : string).

(** ** The process state *)

Record World := mkWorld {
  mem : gmap Z Z;               (* raw bytes of the address space *)
  pages : gmap Z Z;             (* committed pages and their protection *)
  last_error : Z;               (* the thread's last-error code *)
  heap : gmap Z HostObject;     (* live host objects *)
  game_version : Z;             (* what the version detector reports *)
  trace : list Event            (* external calls so far, oldest first *)
}.

Definition set_mem (f : gmap Z Z -> gmap Z Z) (w : World) : World :=
  mkWorld (f (mem w)) (pages w) (last_error w) (heap w) (game_version w) (trace w).
Definition set_pages (f : gmap Z Z -> gmap Z Z) (w : World) : World :=
  mkWorld (mem w) (f (pages w)) (last_error w) (heap w) (game_version w) (trace w).
Definition set_last_error (e : Z) (w : World) : World :=
  mkWorld (mem w) (pages w) e (heap w) (game_version w) (trace w).
Definition emit (e : Event) (w : World) : World :=
  mkWorld (mem w) (pages w) (last_error w) (heap w) (game_version w) (trace w ++ [e]).

(** ** The monad *)

Inductive Outcome (A : Type) : Type :=
| Return (a : A)
| Throw (e : Exception)
| Undefined.   (* undefined behaviour: an invalid pointer was dereferenced *)
Arguments Return {A} a.
Arguments Throw {A} e.
Arguments Undefined {A}.

Definition M (A : Type) : Type := World -> Outcome A * World.

Definition ret {A} (a : A) : M A := fun w => (Return a, w).

Definition bind {A B} (m : M A) (k : A -> M B) : M B :=
  fun w =>
    match m w with
    | (Return a, w') => k a w'
    | (Throw e, w') => (Throw e, w')
    | (Undefined, w') => (Undefined, w')
    end.

Definition throw {A} (e : Exception) : M A := fun w => (Throw e, w).

(** [try { body } catch (const wil::ResultException& e) { handler e }].
    Undefined behaviour is not an exception and is not caught. *)
Definition try_catch {A} (body : M A) (handler : Exception -> M A) : M A :=
  fun w =>
    match body w with
    | (Throw (ResultException c), w') => handler (ResultException c) w'
    | r => r
    end.

Notation "'do' x <- c1 ; c2" := (bind c1 (fun x => c2))
  (at level 10, x name, c1 at level 100, c2 at level 200, only parsing).
Notation "'do_' c1 ; c2" := (bind c1 (fun _ => c2))
  (at level 10, c1 at level 100, c2 at level 200, only parsing).

(** ** Operating system and library services *)

Definition PAGE_EXECUTE_READWRITE : Z := 0x40.
Definition ERROR_INVALID_ADDRESS : Z := 487.
Definition PAGE_SIZE : Z := 4096.

Definition page_of (addr : Z) : Z := addr / PAGE_SIZE.

(** The pages that the byte range [lpAddress, lpAddress + dwSize) touches. *)
Definition range_pages (lpAddress dwSize : Z) : list Z :=
  seqZ (page_of lpAddress) (page_of (lpAddress + dwSize - 1) - page_of lpAddress + 1).

Definition range_committed (pg : gmap Z Z) (lpAddress dwSize : Z) : bool :=
  (0 <=? lpAddress) && (0 <? dwSize) && (lpAddress + dwSize <=? 2 ^ 32)
  && forallb (fun p => bool_decide (is_Some (pg !! p))) (range_pages lpAddress dwSize).

Definition protect_pages (ps : list Z) (prot : Z) (pg : gmap Z Z) : gmap Z Z :=
  foldr (fun p m => <[p := prot]> m) pg ps.

(** Modelled from the spec: the operating system's [VirtualProtect] is not
    part of the repository. The spec describes it as changing the
    protection of the page(s) covering the range, with the prior
    protection captured, and as able to fail (denial, invalid address),
    in which case the OS error is left for [GetLastError]. Here the
    change succeeds exactly when the range lies in the 32-bit address
    space and every page it touches is committed. The result is the
    [BOOL] and the value written to [lpflOldProtect]. *)
Definition VirtualProtect (lpAddress dwSize flNewProtect : Z) : M (bool * Z) :=
  fun w =>
    if range_committed (pages w) lpAddress dwSize then
      (Return (true, default 0 (pages w !! page_of lpAddress)),
       emit (EvVirtualProtect lpAddress dwSize flNewProtect true)
         (set_pages (protect_pages (range_pages lpAddress dwSize) flNewProtect) w))
    else
      (Return (false, 0),
       emit (EvVirtualProtect lpAddress dwSize flNewProtect false)
         (set_last_error ERROR_INVALID_ADDRESS w)).

Definition GetLastError : M Z := fun w => (Return (last_error w), w).

(** [THROW_IF_WIN32_BOOL_FALSE] (wil): a [FALSE] result throws a
    [ResultException] built from [GetLastError()]. *)
Definition THROW_IF_WIN32_BOOL_FALSE (ok : bool) : M unit :=
  if ok then ret tt
  else do code <- GetLastError; throw (ResultException code).

(** A store through a [uint8_t] pointer: one byte. *)
Definition store8 (addr v : Z) : M unit :=
  fun w => (Return tt, emit (EvStore8 addr v) (set_mem (insert addr (byte_of v 0)) w)).

(** A store through a [uintptr_t] pointer: four bytes, least significant
    first (x86 is little-endian). *)
Definition store32 (addr v : Z) : M unit :=
  fun w =>
    (Return tt,
     emit (EvStore32 addr v)
       (set_mem (fun m => <[addr + 3 := byte_of v 3]>
                          (<[addr + 2 := byte_of v 2]>
                          (<[addr + 1 := byte_of v 1]>
                          (<[addr := byte_of v 0]> m)))) w)).

(** The four bytes at [addr], read back as a little-endian word. *)
Definition load32 (m : gmap Z Z) (addr : Z) : option Z :=
  match m !! addr, m !! (addr + 1), m !! (addr + 2), m !! (addr + 3) with
  | Some b0, Some b1, Some b2, Some b3 => Some (le32 b0 b1 b2 b3)
  | _, _, _, _ => None
  end.

(** Modelled from the spec: [Logger::WriteLine] and
    [Logger::WriteLineFormatted] are declared in [Logger.h], outside this
    translation unit. The spec describes the log as leveled lines for
    human diagnosis only; a call is recorded with its level, format
    string and arguments, and returns normally. *)
Definition WriteLine (level : LogLevel) (message : string) : M unit :=
  fun w => (Return tt, emit (EvLog level message []) w).

Definition WriteLineFormatted (level : LogLevel) (format : string) (args : list LogArg) : M unit :=
  fun w => (Return tt, emit (EvLog level format args) w).

(** Modelled from the spec: [SC4VersionDetection::GetGameVersion] is
    declared in [SC4VersionDetection.h], outside this translation unit.
    The spec describes it as reporting the version identifier of the
    running host, with no other effect. *)
Definition GetGameVersion : M Z :=
  fun w => (Return (game_version w), emit (EvGetGameVersion (game_version w)) w).

(** ** The memory patcher *)

Definition InstallCallHook (targetAddress pfnFunc : Z) : M unit :=
  do r <- VirtualProtect targetAddress 5 PAGE_EXECUTE_READWRITE;
  do_ THROW_IF_WIN32_BOOL_FALSE (fst r);
  do_ store8 targetAddress 0xE8;
  store32 (add32 targetAddress 1) (sub32 (sub32 (wrap32 pfnFunc) targetAddress) 5).

(** ** Reading a host object

    Calling a method through a pointer that designates no live object of
    the right interface is undefined behaviour. *)

Definition deref (p : Z) : M HostObject :=
  fun w =>
    match heap w !! p with
    | Some o => (Return o, emit (EvDeref p) w)
    | None => (Undefined, emit (EvDeref p) w)
    end.

Definition undefined {A} : M A := fun w => (Undefined, w).

Definition AsPropertyHolder (pOccupant : Z) : M Z :=
  do o <- deref pOccupant;
  match o with ObjOccupant h => ret h | _ => undefined end.

(** [GetProperty] returns the null pointer for a property that is absent. *)
Definition GetProperty (propertyHolder id : Z) : M Z :=
  do o <- deref propertyHolder;
  match o with ObjPropertyHolder ps => ret (default 0 (ps !! id)) | _ => undefined end.

Definition GetPropertyValue (property : Z) : M Z :=
  do o <- deref property;
  match o with ObjProperty v => ret v | _ => undefined end.

Definition GetType (variant : Z) : M Z :=
  do o <- deref variant;
  match o with ObjVariant t _ => ret t | _ => undefined end.

Definition RefRZChar (variant : Z) : M Z :=
  do o <- deref variant;
  match o with ObjVariant _ c => ret c | _ => undefined end.

(** [name.assign(szName)]: reads the zero-terminated string at [szName]. *)
Definition string_assign (szName : Z) : M string :=
  do o <- deref szName;
  match o with ObjCString s => ret s | _ => undefined end.

Definition string_empty (s : string) : bool :=
  match s with EmptyString => true | String _ _ => false end.

(** ** The plugin *)

Definition kExemplarName : Z := 0x00000020.

Definition newline : string := String "010"%char EmptyString.

Definition fmt_demolished : string := "Demolished occupant '%s'.".
Definition msg_disabled : string := "Disabled the occupant demolition animations.".
Definition fmt_failed : string :=
  "Failed to install the demolition animations patch." ++ newline ++ "%s".
Definition fmt_unsupported : string := "Unsupported game version: %d".

(** The switch on the game version: the address of the call to patch, or
    0 when the version has no [case]. *)
Definition hookTargetAddress (gameVersion : Z) : Z :=
  if gameVersion =? 641 then 0x4673bf else 0.

Section Plugin.

(** Whether the translation unit is compiled with [_DEBUG] defined. *)
Variable _DEBUG : bool.

(** [cIGZVariant::Type::RZCharArray], an enumerator of a header that is
    not part of this translation unit. *)
Variable RZCharArray : Z.

(** [&IsOccupantTooSmallForDemolitionAnimation]: where the loader put
    the replacement function. *)
Variable pfnIsOccupantTooSmallForDemolitionAnimation : Z.

Definition GetOccupantExemplarName (pOccupant : Z) : M string :=
  do propertyHolder <- AsPropertyHolder pOccupant;
  do exemplarName <- GetProperty propertyHolder kExemplarName;
  if negb (exemplarName =? 0) then
    do propertyValue <- GetPropertyValue exemplarName;
    do type <- GetType propertyValue;
    if type =? RZCharArray then
      do szName <- RefRZChar propertyValue;
      string_assign szName
    else ret EmptyString
  else ret EmptyString.

Definition IsOccupantTooSmallForDemolitionAnimation (pOccupant unknown : Z) : M bool :=
  do_ (if _DEBUG then
         do name <- GetOccupantExemplarName pOccupant;
         if negb (string_empty name) then
           WriteLineFormatted Debug fmt_demolished [ArgString name]
         else ret tt
       else ret tt);
  ret true.

Definition InstallDemolitionAnimationHook : M unit :=
  do gameVersion <- GetGameVersion;
  let target := hookTargetAddress gameVersion in
  if negb (target =? 0) then
    try_catch
      (do_ InstallCallHook target pfnIsOccupantTooSmallForDemolitionAnimation;
       WriteLine Info msg_disabled)
      (fun e => WriteLineFormatted Error fmt_failed [ArgWhat e])
  else
    WriteLineFormatted Error fmt_unsupported [ArgInt gameVersion].

Definition OnStart (pCOM : Z) : M bool :=
  do_ InstallDemolitionAnimationHook;
  ret true.

End Plugin.

(** ** The orchestrator's states, as the specification names them

    The code keeps no state variable; the state is read off the calls it
    has made so far. *)

Inductive OrchestratorState :=
| NotStarted | Detecting | Resolving | Patched | Unsupported | Failed.

Definition orchestrator_step (s : OrchestratorState) (e : Event) : OrchestratorState :=
  match s, e with
  | NotStarted, EvGetGameVersion _ => Resolving
  | Resolving, EvLog Info f _ => if String.eqb f msg_disabled then Patched else s
  | Resolving, EvLog Error f _ =>
      if String.eqb f fmt_unsupported then Unsupported
      else if String.eqb f fmt_failed then Failed
      else s
  | _, _ => s
  end.

Definition orchestrator_state (t : list Event) : OrchestratorState :=
  fold_left orchestrator_step t NotStarted.

(** ** The trace, filtered *)

Definition is_store (e : Event) : bool :=
  match e with EvStore8 _ _ | EvStore32 _ _ => true | _ => false end.
Definition is_protect (e : Event) : bool :=
  match e with EvVirtualProtect _ _ _ _ => true | _ => false end.
Definition is_deref (e : Event) : bool :=
  match e with EvDeref _ => true | _ => false end.
Definition is_error_log (e : Event) : bool :=
  match e with EvLog Error _ _ => true | _ => false end.

Definition is_log (e : Event) : bool :=
  match e with EvLog _ _ _ => true | _ => false end.

(** The calls made between two states of the same run. *)
Definition trace_since (w w' : World) : list Event :=
  drop (length (trace w)) (trace w').

(** The protection of the page an address lies in. *)
Definition protection_at (w : World) (addr : Z) : option Z :=
  pages w !! page_of addr.

(** ** The address resolver, as the specification words it

    A static table of patch targets, one entry per supported version;
    a version without an entry is not found. *)

Definition PatchTargetTable : gmap Z Z := {[ 641 := 0x4673bf ]}.

Definition resolve (v : Z) : option Z := PatchTargetTable !! v.

(** ** When the diagnostic read is defined

    The objects [GetOccupantExemplarName] goes through, in the order it
    reaches them: the occupant, its property holder and, when the
    exemplar-name property is present, the property, its value and, when
    the value is a character array, the characters. *)

Definition valid_name_value (RZCharArray : Z) (h : gmap Z HostObject) (property : Z) : bool :=
  match h !! property with
  | Some (ObjProperty v) =>
      match h !! v with
      | Some (ObjVariant t c) =>
          if t =? RZCharArray then
            match h !! c with Some (ObjCString _) => true | _ => false end
          else true
      | _ => false
      end
  | _ => false
  end.

Definition valid_occupant (RZCharArray : Z) (h : gmap Z HostObject) (pOccupant : Z) : bool :=
  match h !! pOccupant with
  | Some (ObjOccupant holder) =>
      match h !! holder with
      | Some (ObjPropertyHolder ps) =>
          let q := default 0 (ps !! kExemplarName) in
          if q =? 0 then true else valid_name_value RZCharArray h q
      | _ => false
      end
  | _ => false
  end.

(** The two ways the name can be missing from a well-formed occupant:
    the property is absent, or its value is not a character array. *)
Definition name_unavailable (RZCharArray : Z) (h : gmap Z HostObject) (pOccupant : Z) : bool :=
  match h !! pOccupant with
  | Some (ObjOccupant holder) =>
      match h !! holder with
      | Some (ObjPropertyHolder ps) =>
          let q := default 0 (ps !! kExemplarName) in
          if q =? 0 then true
          else
            match h !! q with
            | Some (ObjProperty v) =>
                match h !! v with
                | Some (ObjVariant t _) => negb (t =? RZCharArray)
                | _ => false
                end
            | _ => false
            end
      | _ => false
      end
  | _ => false
  end.

(** The state a successful patch leaves behind. *)
Definition patched_world (targetAddress pfnFunc : Z) (w : World) : World :=
  let d := sub32 (sub32 (wrap32 pfnFunc) targetAddress) 5 in
  let a := add32 targetAddress 1 in
  mkWorld
    (<[a + 3 := byte_of d 3]> (<[a + 2 := byte_of d 2]> (<[a + 1 := byte_of d 1]>
      (<[a := byte_of d 0]> (<[targetAddress := byte_of 0xE8 0]> (mem w))))))
    (protect_pages (range_pages targetAddress 5) PAGE_EXECUTE_READWRITE (pages w))
    (last_error w) (heap w) (game_version w)
    (((trace w ++ [EvVirtualProtect targetAddress 5 PAGE_EXECUTE_READWRITE true])
        ++ [EvStore8 targetAddress 0xE8]) ++ [EvStore32 a d]).

(** The state a refused protection change leaves behind. *)
Definition refused_world (targetAddress : Z) (w : World) : World :=
  mkWorld (mem w) (pages w) ERROR_INVALID_ADDRESS (heap w) (game_version w)
    (trace w ++ [EvVirtualProtect targetAddress 5 PAGE_EXECUTE_READWRITE false]).

(** ** Sample process states *)

(** The page 0x1000..0x1FFF committed, execute-read (0x20). *)
Definition world_page1 : World := mkWorld ∅ {[ 1 := 0x20 ]} 0 ∅ 641 [].

(** Version 641 with the page of the patched call site committed. *)
Definition world_641 : World := mkWorld ∅ {[ 0x467 := 0x20 ]} 0 ∅ 641 [].

(** Version 641 with nothing committed: the protection change fails. *)
Definition world_641_unmapped : World := mkWorld ∅ ∅ 0 ∅ 641 [].

(** A version without a table entry. *)
Definition world_640 : World := mkWorld ∅ {[ 0x467 := 0x20 ]} 0 ∅ 640 [].

(** An occupant at 100 named Foo (type code 9 stands for the character
    array), and an occupant at 600 without the exemplar-name property. *)
Definition sample_heap : gmap Z HostObject :=
  {[ 100 := ObjOccupant 200; 200 := ObjPropertyHolder {[ 0x20 := 300 ]};
     300 := ObjProperty 400; 400 := ObjVariant 9 500; 500 := ObjCString "Foo";
     600 := ObjOccupant 700; 700 := ObjPropertyHolder ∅ ]}.

Definition world_heap : World := mkWorld ∅ ∅ 0 sample_heap 641 [].

(** Pages 0x1000..0x2FFF committed: room for two call sites, also
    for one that straddles the page boundary at 0x2000. *)
Definition world_two_pages : World :=
  mkWorld {[ 0x1000 := 0x90; 0x1800 := 0x55 ]} {[ 1 := 0x20; 2 := 0x04 ]} 0 ∅ 641 [].

(** An occupant at 800 whose exemplar name is the empty string. *)
Definition unnamed_heap : gmap Z HostObject :=
  {[ 800 := ObjOccupant 810; 810 := ObjPropertyHolder {[ 0x20 := 820 ]};
     820 := ObjProperty 830; 830 := ObjVariant 9 840; 840 := ObjCString EmptyString ]}.

Definition world_unnamed : World := mkWorld ∅ ∅ 0 unnamed_heap 641 [].


(** * Properties *)

(** ** Machine arithmetic *)

Lemma byte_of_div (v i : Z) : 0 <= i -> byte_of v i = (v / 2 ^ (8 * i)) mod 2 ^ 8.
Proof.
  intros Hi. unfold byte_of.
  change 255 with (Z.ones 8).
  rewrite Z.land_ones by lia.
  rewrite Z.shiftr_div_pow2 by lia.
  reflexivity.
Qed.

Lemma le32_byte_of (v : Z) :
  le32 (byte_of v 0) (byte_of v 1) (byte_of v 2) (byte_of v 3) = wrap32 v.
Proof.
  unfold le32, wrap32.
  rewrite !byte_of_div by lia.
  change (2 ^ (8 * 0)) with 1. change (2 ^ (8 * 1)) with 256.
  change (2 ^ (8 * 2)) with 65536. change (2 ^ (8 * 3)) with 16777216.
  change (2 ^ 8) with 256. change (2 ^ 16) with 65536.
  change (2 ^ 24) with 16777216. change (2 ^ 32) with 4294967296.
  Z.div_mod_to_equations. lia.
Qed.

Lemma wrap32_range (z : Z) : 0 <= wrap32 z < 2 ^ 32.
Proof. unfold wrap32. apply Z.mod_pos_bound. lia. Qed.

Lemma wrap32_small (z : Z) : 0 <= z < 2 ^ 32 -> wrap32 z = z.
Proof. intros H. unfold wrap32. apply Z.mod_small. exact H. Qed.

(** The displacement the patcher computes with 32-bit subtractions is
    [pfnFunc - targetAddress - 5] reduced modulo 2^32. *)
Lemma displacement_wrap (pfnFunc targetAddress : Z) :
  sub32 (sub32 (wrap32 pfnFunc) targetAddress) 5 = wrap32 (pfnFunc - targetAddress - 5).
Proof.
  unfold sub32, wrap32.
  change (2 ^ 32) with 4294967296.
  Z.div_mod_to_equations. lia.
Qed.

Lemma signed32_congr (u : Z) : 0 <= u < 2 ^ 32 -> wrap32 (signed32 u) = u.
Proof.
  intros H. unfold signed32, wrap32.
  destruct (u <? 2 ^ 31).
  - apply Z.mod_small. exact H.
  - replace (u - 2 ^ 32) with (u + (-1) * 2 ^ 32) by lia.
    rewrite Z.mod_add by lia. apply Z.mod_small. exact H.
Qed.

(** A near call at [targetAddress] with this displacement lands on
    [pfnFunc]: the processor adds the signed displacement to the address
    of the next instruction. *)
Lemma call_lands (pfnFunc targetAddress : Z) :
  wrap32 (targetAddress + 5 + signed32 (wrap32 (pfnFunc - targetAddress - 5))) = wrap32 pfnFunc.
Proof.
  pose proof (signed32_congr _ (wrap32_range (pfnFunc - targetAddress - 5))) as H.
  pose proof (wrap32_range (pfnFunc - targetAddress - 5)) as Hr.
  unfold signed32 in *. unfold wrap32 in *.
  change (2 ^ 32) with 4294967296 in *.
  destruct ((pfnFunc - targetAddress - 5) mod 4294967296 <? 2 ^ 31);
    Z.div_mod_to_equations; lia.
Qed.

(** ** Traces *)

Lemma trace_since_app (w w' : World) (d : list Event) :
  trace w' = trace w ++ d -> trace_since w w' = d.
Proof. intros H. unfold trace_since. rewrite H. apply drop_app_length. Qed.

Lemma trace_since_refl (w : World) : trace_since w w = [].
Proof. apply trace_since_app. symmetry. apply app_nil_r. Qed.

(** ** Page protection *)

Lemma protect_pages_in (ps : list Z) (prot : Z) (pg : gmap Z Z) (p : Z) :
  p ∈ ps -> protect_pages ps prot pg !! p = Some prot.
Proof.
  induction ps as [|q ps IH]; intros Hin.
  - inversion Hin.
  - simpl. destruct (decide (q = p)) as [->|Hne].
    + apply lookup_insert_eq.
    + rewrite lookup_insert_ne by exact Hne.
      apply IH. inversion Hin; subst; [congruence | assumption].
Qed.

Lemma protect_pages_out (ps : list Z) (prot : Z) (pg : gmap Z Z) (p : Z) :
  p ∉ ps -> protect_pages ps prot pg !! p = pg !! p.
Proof.
  induction ps as [|q ps IH]; intros Hout; [reflexivity|].
  simpl. apply not_elem_of_cons in Hout as [Hne Hout].
  rewrite lookup_insert_ne by congruence. apply IH, Hout.
Qed.

Lemma protect_pages_idem (ps : list Z) (prot : Z) (pg : gmap Z Z) :
  protect_pages ps prot (protect_pages ps prot pg) = protect_pages ps prot pg.
Proof.
  apply map_eq. intros p.
  destruct (decide (p ∈ ps)) as [Hin|Hout].
  - rewrite !protect_pages_in by exact Hin. reflexivity.
  - rewrite protect_pages_out by exact Hout. reflexivity.
Qed.

Lemma page_in_range (lpAddress dwSize a : Z) :
  lpAddress <= a < lpAddress + dwSize -> page_of a ∈ range_pages lpAddress dwSize.
Proof.
  intros Ha. unfold range_pages. apply elem_of_seqZ.
  unfold page_of, PAGE_SIZE.
  assert (lpAddress / 4096 <= a / 4096) by (apply Z.div_le_mono; lia).
  assert (a / 4096 <= (lpAddress + dwSize - 1) / 4096) by (apply Z.div_le_mono; lia).
  lia.
Qed.

Lemma range_committed_protect (pg : gmap Z Z) (lpAddress dwSize prot : Z) :
  range_committed pg lpAddress dwSize = true ->
  range_committed (protect_pages (range_pages lpAddress dwSize) prot pg) lpAddress dwSize = true.
Proof.
  unfold range_committed. intros H.
  apply andb_prop in H as [Hrange _]. rewrite Hrange. simpl.
  apply forallb_forall. intros p Hp.
  apply bool_decide_eq_true. exists prot.
  apply protect_pages_in. apply list_elem_of_In. exact Hp.
Qed.

Lemma range_committed_bounds (pg : gmap Z Z) (lpAddress dwSize : Z) :
  range_committed pg lpAddress dwSize = true ->
  0 <= lpAddress /\ 0 < dwSize /\ lpAddress + dwSize <= 2 ^ 32.
Proof.
  unfold range_committed. intros H.
  apply andb_prop in H as [H _]. apply andb_prop in H as [H H3].
  apply andb_prop in H as [H1 H2]. lia.
Qed.

(** ** What [VirtualProtect] and [InstallCallHook] evaluate to *)

Lemma VirtualProtect_result (lpAddress dwSize prot : Z) (w : World) :
  fst (VirtualProtect lpAddress dwSize prot w)
  = Return (range_committed (pages w) lpAddress dwSize,
            if range_committed (pages w) lpAddress dwSize
            then default 0 (pages w !! page_of lpAddress) else 0).
Proof. unfold VirtualProtect. destruct (range_committed _ _ _); reflexivity. Qed.

Lemma VirtualProtect_succeeds (lpAddress dwSize prot old : Z) (w : World) :
  fst (VirtualProtect lpAddress dwSize prot w) = Return (true, old) ->
  range_committed (pages w) lpAddress dwSize = true.
Proof. rewrite VirtualProtect_result. intros H. congruence. Qed.

Lemma VirtualProtect_fails (lpAddress dwSize prot old : Z) (w : World) :
  fst (VirtualProtect lpAddress dwSize prot w) = Return (false, old) ->
  range_committed (pages w) lpAddress dwSize = false.
Proof. rewrite VirtualProtect_result. intros H. congruence. Qed.

Lemma InstallCallHook_committed (targetAddress pfnFunc : Z) (w : World) :
  range_committed (pages w) targetAddress 5 = true ->
  InstallCallHook targetAddress pfnFunc w
  = (Return tt, patched_world targetAddress pfnFunc w).
Proof.
  intros H. unfold InstallCallHook, bind, VirtualProtect. rewrite H. reflexivity.
Qed.

Lemma InstallCallHook_refused (targetAddress pfnFunc : Z) (w : World) :
  range_committed (pages w) targetAddress 5 = false ->
  InstallCallHook targetAddress pfnFunc w
  = (Throw (ResultException ERROR_INVALID_ADDRESS), refused_world targetAddress w).
Proof.
  intros H. unfold InstallCallHook, bind, VirtualProtect. rewrite H. reflexivity.
Qed.

Lemma patched_world_mem (targetAddress pfnFunc : Z) (w : World) :
  0 <= targetAddress -> targetAddress + 5 <= 2 ^ 32 ->
  let d := wrap32 (pfnFunc - targetAddress - 5) in
  mem (patched_world targetAddress pfnFunc w)
  = <[targetAddress + 4 := byte_of d 3]> (<[targetAddress + 3 := byte_of d 2]>
      (<[targetAddress + 2 := byte_of d 1]> (<[targetAddress + 1 := byte_of d 0]>
        (<[targetAddress := 0xE8]> (mem w))))).
Proof.
  intros H0 H1 d. unfold patched_world. cbn [mem].
  rewrite displacement_wrap. fold d.
  unfold add32. rewrite wrap32_small by lia.
  replace (targetAddress + 1 + 3) with (targetAddress + 4) by lia.
  replace (targetAddress + 1 + 2) with (targetAddress + 3) by lia.
  replace (targetAddress + 1 + 1) with (targetAddress + 2) by lia.
  reflexivity.
Qed.

Lemma patched_world_trace (targetAddress pfnFunc : Z) (w : World) :
  0 <= targetAddress -> targetAddress + 5 <= 2 ^ 32 ->
  trace (patched_world targetAddress pfnFunc w)
  = trace w ++ [EvVirtualProtect targetAddress 5 PAGE_EXECUTE_READWRITE true;
                EvStore8 targetAddress 0xE8;
                EvStore32 (targetAddress + 1) (wrap32 (pfnFunc - targetAddress - 5))].
Proof.
  intros H0 H1. unfold patched_world. cbn [trace].
  rewrite displacement_wrap. unfold add32. rewrite wrap32_small by lia.
  rewrite <- !app_assoc. reflexivity.
Qed.

(** The five bytes a successful patch leaves, and the frame around them. *)
Lemma patched_world_bytes (targetAddress pfnFunc : Z) (w : World) :
  0 <= targetAddress -> targetAddress + 5 <= 2 ^ 32 ->
  let m := mem (patched_world targetAddress pfnFunc w) in
  let d := wrap32 (pfnFunc - targetAddress - 5) in
  m !! targetAddress = Some 0xE8
  /\ m !! (targetAddress + 1) = Some (byte_of d 0)
  /\ m !! (targetAddress + 2) = Some (byte_of d 1)
  /\ m !! (targetAddress + 3) = Some (byte_of d 2)
  /\ m !! (targetAddress + 4) = Some (byte_of d 3)
  /\ (forall a, ~ (targetAddress <= a < targetAddress + 5) -> m !! a = mem w !! a).
Proof.
  intros H0 H1 m d. subst m.
  rewrite (patched_world_mem targetAddress pfnFunc w H0 H1). cbv zeta. fold d.
  repeat split.
  - rewrite !lookup_insert_ne by lia. apply lookup_insert_eq.
  - rewrite !lookup_insert_ne by lia. apply lookup_insert_eq.
  - rewrite !lookup_insert_ne by lia. apply lookup_insert_eq.
  - rewrite !lookup_insert_ne by lia. apply lookup_insert_eq.
  - apply lookup_insert_eq.
  - intros a Ha. rewrite !lookup_insert_ne by lia. reflexivity.
Qed.

(** ** The memory patcher *)

(** C1. When the protection change succeeds, [InstallCallHook] returns
    normally and leaves exactly the five bytes of a near call at
    [targetAddress]: the opcode 0xE8, then the four bytes, least
    significant first, of [pfnFunc - targetAddress - 5] (taken modulo
    2^32, as a 32-bit displacement is); no other byte of memory changes;
    read as a signed displacement from the end of the instruction, the
    call lands on [pfnFunc]. For [targetAddress = 0x1000] and
    [pfnFunc = 0x2000] the displacement read back is 0x0FFB. *)
Theorem InstallCallHook_writes_near_call
    (targetAddress pfnFunc oldProtect : Z) (w : World) :
  fst (VirtualProtect targetAddress 5 PAGE_EXECUTE_READWRITE w) = Return (true, oldProtect) ->
  let w' := snd (InstallCallHook targetAddress pfnFunc w) in
  let d := wrap32 (pfnFunc - targetAddress - 5) in
  fst (InstallCallHook targetAddress pfnFunc w) = Return tt
  /\ mem w' !! targetAddress = Some 0xE8
  /\ mem w' !! (targetAddress + 1) = Some (byte_of d 0)
  /\ mem w' !! (targetAddress + 2) = Some (byte_of d 1)
  /\ mem w' !! (targetAddress + 3) = Some (byte_of d 2)
  /\ mem w' !! (targetAddress + 4) = Some (byte_of d 3)
  /\ load32 (mem w') (targetAddress + 1) = Some d
  /\ (forall a, ~ (targetAddress <= a < targetAddress + 5) -> mem w' !! a = mem w !! a)
  /\ List.filter is_store (trace_since w w')
     = [EvStore8 targetAddress 0xE8; EvStore32 (targetAddress + 1) d]
  /\ wrap32 (targetAddress + 5 + signed32 d) = wrap32 pfnFunc
  /\ (targetAddress = 0x1000 -> pfnFunc = 0x2000 -> load32 (mem w') 0x1001 = Some 0x0FFB).
Proof.
  intros Hok w' d.
  apply VirtualProtect_succeeds in Hok.
  destruct (range_committed_bounds _ _ _ Hok) as (H0 & _ & H1).
  subst w'. rewrite (InstallCallHook_committed _ pfnFunc _ Hok). cbn [fst snd].
  destruct (patched_world_bytes targetAddress pfnFunc w H0 H1)
    as (Hb0 & Hb1 & Hb2 & Hb3 & Hb4 & Hframe).
  cbv zeta in Hb1, Hb2, Hb3, Hb4. fold d in Hb1, Hb2, Hb3, Hb4.
  assert (Hld : load32 (mem (patched_world targetAddress pfnFunc w)) (targetAddress + 1)
                = Some d).
  { unfold load32.
    replace (targetAddress + 1 + 1) with (targetAddress + 2) by lia.
    replace (targetAddress + 1 + 2) with (targetAddress + 3) by lia.
    replace (targetAddress + 1 + 3) with (targetAddress + 4) by lia.
    rewrite Hb1, Hb2, Hb3, Hb4. rewrite le32_byte_of.
    f_equal. apply wrap32_small. apply wrap32_range. }
  repeat split; try assumption.
  - rewrite (trace_since_app _ _ _ (patched_world_trace _ pfnFunc w H0 H1)).
    reflexivity.
  - apply call_lands.
  - intros Ht Hf. subst targetAddress pfnFunc. exact Hld.
Qed.

Lemma InstallCallHook_writes_near_call_witness :
  fst (VirtualProtect 0x1000 5 PAGE_EXECUTE_READWRITE world_page1) = Return (true, 0x20)
  /\ mem (snd (InstallCallHook 0x1000 0x2000 world_page1)) !! 0x1000 = Some 0xE8
  /\ load32 (mem (snd (InstallCallHook 0x1000 0x2000 world_page1))) 0x1001 = Some 0x0FFB.
Proof.
  assert (H : fst (VirtualProtect 0x1000 5 PAGE_EXECUTE_READWRITE world_page1)
              = Return (true, 0x20)) by (vm_compute; reflexivity).
  pose proof (InstallCallHook_writes_near_call 0x1000 0x2000 0x20 world_page1 H) as T.
  cbv zeta in T.
  destruct T as (_ & Hop & _ & _ & _ & _ & _ & _ & _ & _ & Hex).
  split; [exact H|]. split; [exact Hop|]. apply Hex; reflexivity.
Defined.

(** ** What the orchestrator evaluates to *)

Lemma hook_unsupported (pfn : Z) (w : World) :
  game_version w <> 641 ->
  InstallDemolitionAnimationHook pfn w
  = (Return tt,
     emit (EvLog Error fmt_unsupported [ArgInt (game_version w)])
       (emit (EvGetGameVersion (game_version w)) w)).
Proof.
  intros Hv. unfold InstallDemolitionAnimationHook, bind, GetGameVersion, hookTargetAddress.
  destruct (Z.eqb_spec (game_version w) 641) as [Heq|_]; [contradiction|].
  reflexivity.
Qed.

Lemma hook_patched (pfn : Z) (w : World) :
  game_version w = 641 ->
  range_committed (pages w) 0x4673bf 5 = true ->
  InstallDemolitionAnimationHook pfn w
  = (Return tt,
     emit (EvLog Info msg_disabled [])
       (patched_world 0x4673bf pfn (emit (EvGetGameVersion 641) w))).
Proof.
  intros Hv Hc.
  unfold InstallDemolitionAnimationHook, bind, GetGameVersion, hookTargetAddress, try_catch.
  rewrite Hv. cbn [Z.eqb Pos.eqb negb].
  rewrite InstallCallHook_committed by exact Hc. reflexivity.
Qed.

Lemma hook_failed (pfn : Z) (w : World) :
  game_version w = 641 ->
  range_committed (pages w) 0x4673bf 5 = false ->
  InstallDemolitionAnimationHook pfn w
  = (Return tt,
     emit (EvLog Error fmt_failed [ArgWhat (ResultException ERROR_INVALID_ADDRESS)])
       (refused_world 0x4673bf (emit (EvGetGameVersion 641) w))).
Proof.
  intros Hv Hc.
  unfold InstallDemolitionAnimationHook, bind, GetGameVersion, hookTargetAddress, try_catch.
  rewrite Hv. cbn [Z.eqb Pos.eqb negb].
  rewrite InstallCallHook_refused by exact Hc. reflexivity.
Qed.

(** C2. When the protection change fails, [InstallCallHook] throws a
    [ResultException] carrying the error the operating system left for
    [GetLastError], writes no byte (memory is unchanged and the only
    call made is the refused [VirtualProtect]); the orchestrator, for
    the supported version, catches it, logs the failure with the
    exception at Error level, ends in state Failed and returns normally
    with memory unchanged. On every execution the calls of
    [InstallCallHook] begin with the protection change, and the two
    stores follow only when it succeeded. *)
Theorem InstallCallHook_protection_failure
    (targetAddress pfnFunc oldProtect : Z) (w : World) :
  fst (VirtualProtect targetAddress 5 PAGE_EXECUTE_READWRITE w) = Return (false, oldProtect) ->
  let os_error := last_error (snd (VirtualProtect targetAddress 5 PAGE_EXECUTE_READWRITE w)) in
  let r := InstallCallHook targetAddress pfnFunc w in
  fst r = Throw (ResultException os_error)
  /\ mem (snd r) = mem w
  /\ pages (snd r) = pages w
  /\ trace_since w (snd r)
     = [EvVirtualProtect targetAddress 5 PAGE_EXECUTE_READWRITE false]
  /\ List.filter is_store (trace_since w (snd r)) = []
  /\ (forall pfn, game_version w = 641 -> targetAddress = 0x4673bf ->
      let o := InstallDemolitionAnimationHook pfn w in
      fst o = Return tt
      /\ trace_since w (snd o)
         = [EvGetGameVersion 641;
            EvVirtualProtect 0x4673bf 5 PAGE_EXECUTE_READWRITE false;
            EvLog Error fmt_failed [ArgWhat (ResultException os_error)]]
      /\ orchestrator_state (trace_since w (snd o)) = Failed
      /\ List.filter is_store (trace_since w (snd o)) = []
      /\ mem (snd o) = mem w)
  /\ (forall pfn0 w0,
      exists ok,
        trace_since w0 (snd (InstallCallHook targetAddress pfn0 w0))
        = EvVirtualProtect targetAddress 5 PAGE_EXECUTE_READWRITE ok
          :: (if ok
              then [EvStore8 targetAddress 0xE8;
                    EvStore32 (add32 targetAddress 1)
                      (sub32 (sub32 (wrap32 pfn0) targetAddress) 5)]
              else [])).
Proof.
  intros Hfail os_error r.
  apply VirtualProtect_fails in Hfail.
  assert (Hos : os_error = ERROR_INVALID_ADDRESS).
  { subst os_error. unfold VirtualProtect. rewrite Hfail. reflexivity. }
  subst r. rewrite (InstallCallHook_refused _ pfnFunc _ Hfail). cbn [fst snd].
  rewrite Hos.
  assert (Ht : trace_since w (refused_world targetAddress w)
               = [EvVirtualProtect targetAddress 5 PAGE_EXECUTE_READWRITE false]).
  { apply trace_since_app. reflexivity. }
  split; [reflexivity|]. split; [reflexivity|]. split; [reflexivity|].
  split; [exact Ht|]. split; [rewrite Ht; reflexivity|]. split.
  - intros pfn Hv Heq. subst targetAddress.
    rewrite (hook_failed pfn w Hv Hfail). cbn [fst snd].
    assert (Hto : trace_since w
              (emit (EvLog Error fmt_failed [ArgWhat (ResultException ERROR_INVALID_ADDRESS)])
                 (refused_world 0x4673bf (emit (EvGetGameVersion 641) w)))
            = [EvGetGameVersion 641;
               EvVirtualProtect 0x4673bf 5 PAGE_EXECUTE_READWRITE false;
               EvLog Error fmt_failed [ArgWhat (ResultException ERROR_INVALID_ADDRESS)]]).
    { apply trace_since_app. cbn [trace emit refused_world].
      rewrite <- !app_assoc. reflexivity. }
    rewrite Hto. repeat split; reflexivity.
  - intros pfn0 w0.
    destruct (range_committed (pages w0) targetAddress 5) eqn:Hc.
    + exists true. rewrite (InstallCallHook_committed _ pfn0 _ Hc). cbn [snd].
      apply trace_since_app. unfold patched_world. cbn [trace].
      rewrite <- !app_assoc. reflexivity.
    + exists false. rewrite (InstallCallHook_refused _ pfn0 _ Hc). cbn [snd].
      apply trace_since_app. reflexivity.
Qed.

Lemma InstallCallHook_protection_failure_witness :
  fst (VirtualProtect 0x4673bf 5 PAGE_EXECUTE_READWRITE world_641_unmapped) = Return (false, 0)
  /\ fst (InstallCallHook 0x4673bf 0x10001000 world_641_unmapped)
     = Throw (ResultException 487)
  /\ orchestrator_state
       (trace_since world_641_unmapped
          (snd (InstallDemolitionAnimationHook 0x10001000 world_641_unmapped))) = Failed.
Proof.
  assert (H : fst (VirtualProtect 0x4673bf 5 PAGE_EXECUTE_READWRITE world_641_unmapped)
              = Return (false, 0)) by (vm_compute; reflexivity).
  pose proof (InstallCallHook_protection_failure 0x4673bf 0x10001000 0 world_641_unmapped H) as T.
  cbv zeta in T.
  destruct T as (Hthrow & _ & _ & _ & _ & Horch & _).
  split; [exact H|]. split; [exact Hthrow|].
  destruct (Horch 0x10001000 eq_refl eq_refl) as (_ & _ & Hst & _). exact Hst.
Defined.

Lemma InstallCallHook_returns (targetAddress pfnFunc : Z) (w : World) :
  fst (InstallCallHook targetAddress pfnFunc w) = Return tt ->
  range_committed (pages w) targetAddress 5 = true.
Proof.
  intros H. destruct (range_committed (pages w) targetAddress 5) eqn:Hc; [reflexivity|].
  rewrite (InstallCallHook_refused _ pfnFunc _ Hc) in H. discriminate H.
Qed.

(** C7. After a successful [InstallCallHook] every byte of the patched
    range lies in a page whose protection is PAGE_EXECUTE_READWRITE: the
    page table is the one [VirtualProtect] produced, the prior
    protection was handed back to the caller, and the only protection
    call of the run is the one that raised it; nothing restores it. *)
Theorem InstallCallHook_leaves_protection_elevated
    (targetAddress pfnFunc : Z) (w : World) :
  fst (InstallCallHook targetAddress pfnFunc w) = Return tt ->
  let w' := snd (InstallCallHook targetAddress pfnFunc w) in
  (forall a, targetAddress <= a < targetAddress + 5 ->
     protection_at w' a = Some PAGE_EXECUTE_READWRITE)
  /\ pages w' = pages (snd (VirtualProtect targetAddress 5 PAGE_EXECUTE_READWRITE w))
  /\ (exists prior, protection_at w targetAddress = Some prior
      /\ fst (VirtualProtect targetAddress 5 PAGE_EXECUTE_READWRITE w) = Return (true, prior))
  /\ List.filter is_protect (trace_since w w')
     = [EvVirtualProtect targetAddress 5 PAGE_EXECUTE_READWRITE true].
Proof.
  intros Hret w'. apply InstallCallHook_returns in Hret.
  destruct (range_committed_bounds _ _ _ Hret) as (H0 & _ & H1).
  subst w'. rewrite (InstallCallHook_committed _ pfnFunc _ Hret). cbn [snd].
  split; [|split; [|split]].
  - intros a Ha. unfold protection_at, patched_world. cbn [pages].
    apply protect_pages_in. apply page_in_range. exact Ha.
  - unfold VirtualProtect. rewrite Hret. reflexivity.
  - assert (Hin : page_of targetAddress ∈ range_pages targetAddress 5)
      by (apply page_in_range; lia).
    pose proof Hret as Hc.
    unfold range_committed in Hc. apply andb_prop in Hc as [_ Hall].
    rewrite forallb_forall in Hall.
    specialize (Hall (page_of targetAddress)).
    rewrite <- list_elem_of_In in Hall. specialize (Hall Hin).
    apply bool_decide_eq_true in Hall. destruct Hall as [prior Hp].
    exists prior. unfold protection_at. split; [exact Hp|].
    rewrite VirtualProtect_result, Hret, Hp. reflexivity.
  - rewrite (trace_since_app _ _ _ (patched_world_trace _ pfnFunc w H0 H1)).
    reflexivity.
Qed.

Lemma InstallCallHook_leaves_protection_elevated_witness :
  fst (InstallCallHook 0x4673bf 0x10001000 world_641) = Return tt
  /\ protection_at world_641 0x4673bf = Some 0x20
  /\ protection_at (snd (InstallCallHook 0x4673bf 0x10001000 world_641)) 0x4673bf
     = Some PAGE_EXECUTE_READWRITE.
Proof.
  assert (H : fst (InstallCallHook 0x4673bf 0x10001000 world_641) = Return tt)
    by (vm_compute; reflexivity).
  pose proof (InstallCallHook_leaves_protection_elevated 0x4673bf 0x10001000 world_641 H) as T.
  cbv zeta in T. destruct T as (Hprot & _).
  split; [exact H|]. split; [vm_compute; reflexivity|]. apply Hprot. lia.
Defined.

(** C8. Calling [InstallCallHook] a second time with the same arguments
    ends the same way as the first call and leaves memory, and so the
    five bytes at [targetAddress], and the page protections exactly as
    the first call left them. *)
Theorem InstallCallHook_idempotent (targetAddress pfnFunc : Z) (w : World) :
  let once := InstallCallHook targetAddress pfnFunc w in
  let twice := InstallCallHook targetAddress pfnFunc (snd once) in
  fst twice = fst once
  /\ mem (snd twice) = mem (snd once)
  /\ pages (snd twice) = pages (snd once)
  /\ (mem (snd twice) !! targetAddress = mem (snd once) !! targetAddress
      /\ load32 (mem (snd twice)) (add32 targetAddress 1)
         = load32 (mem (snd once)) (add32 targetAddress 1)).
Proof.
  intros once twice.
  assert (Hmain : fst twice = fst once /\ mem (snd twice) = mem (snd once)
                  /\ pages (snd twice) = pages (snd once)).
  { subst once twice.
    destruct (range_committed (pages w) targetAddress 5) eqn:Hc.
    - rewrite (InstallCallHook_committed _ pfnFunc _ Hc). cbn [fst snd].
      destruct (range_committed_bounds _ _ _ Hc) as (H0 & _ & H1).
      assert (Hc' : range_committed (pages (patched_world targetAddress pfnFunc w))
                      targetAddress 5 = true).
      { unfold patched_world. cbn [pages]. apply range_committed_protect. exact Hc. }
      rewrite (InstallCallHook_committed _ pfnFunc _ Hc'). cbn [fst snd].
      split; [reflexivity|]. split.
      + destruct (patched_world_bytes targetAddress pfnFunc w H0 H1)
          as (Hb0 & Hb1 & Hb2 & Hb3 & Hb4 & _).
        cbv zeta in Hb0, Hb1, Hb2, Hb3, Hb4.
        rewrite (patched_world_mem targetAddress pfnFunc
                   (patched_world targetAddress pfnFunc w) H0 H1).
        cbv zeta.
        rewrite (insert_id _ _ _ Hb0), (insert_id _ _ _ Hb1), (insert_id _ _ _ Hb2),
          (insert_id _ _ _ Hb3), (insert_id _ _ _ Hb4).
        reflexivity.
      + unfold patched_world at 1. cbn [pages].
        unfold patched_world. cbn [pages]. apply protect_pages_idem.
    - rewrite (InstallCallHook_refused _ pfnFunc _ Hc). cbn [fst snd].
      assert (Hc' : range_committed (pages (refused_world targetAddress w))
                      targetAddress 5 = false) by exact Hc.
      rewrite (InstallCallHook_refused _ pfnFunc _ Hc'). cbn [fst snd].
      repeat split; reflexivity. }
  destruct Hmain as (Hr & Hm & Hp).
  split; [exact Hr|]. split; [exact Hm|]. split; [exact Hp|].
  rewrite Hm. split; reflexivity.
Qed.

(** ** The orchestrator *)

(** C6. For a version without a table entry the orchestrator returns
    normally, having made exactly two calls: the version query and one
    Error-level log line naming the version; it ends in state
    Unsupported, with memory and page protections untouched, and
    [OnStart] still returns [true]. *)
Theorem InstallDemolitionAnimationHook_unsupported (pfn : Z) (w : World) :
  resolve (game_version w) = None ->
  let o := InstallDemolitionAnimationHook pfn w in
  fst o = Return tt
  /\ trace_since w (snd o)
     = [EvGetGameVersion (game_version w);
        EvLog Error fmt_unsupported [ArgInt (game_version w)]]
  /\ orchestrator_state (trace_since w (snd o)) = Unsupported
  /\ List.filter is_store (trace_since w (snd o)) = []
  /\ List.filter is_protect (trace_since w (snd o)) = []
  /\ mem (snd o) = mem w
  /\ pages (snd o) = pages w
  /\ (forall pCOM, fst (OnStart pfn pCOM w) = Return true).
Proof.
  intros Hres o.
  assert (Hv : game_version w <> 641).
  { intros Heq. unfold resolve in Hres. rewrite Heq in Hres. discriminate Hres. }
  assert (Ho : o = (Return tt,
                    emit (EvLog Error fmt_unsupported [ArgInt (game_version w)])
                      (emit (EvGetGameVersion (game_version w)) w)))
    by (apply hook_unsupported; exact Hv).
  assert (Ht : trace_since w (snd o)
               = [EvGetGameVersion (game_version w);
                  EvLog Error fmt_unsupported [ArgInt (game_version w)]]).
  { rewrite Ho. cbn [snd]. apply trace_since_app. cbn [trace emit].
    rewrite <- app_assoc. reflexivity. }
  rewrite Ht. rewrite Ho. cbn [fst snd].
  repeat split; try reflexivity.
  intros pCOM. unfold OnStart, bind. fold o. rewrite Ho. reflexivity.
Qed.

Lemma InstallDemolitionAnimationHook_unsupported_witness :
  resolve (game_version world_640) = None
  /\ orchestrator_state
       (trace_since world_640 (snd (InstallDemolitionAnimationHook 0x10001000 world_640)))
     = Unsupported
  /\ mem (snd (InstallDemolitionAnimationHook 0x10001000 world_640)) = mem world_640.
Proof.
  assert (H : resolve (game_version world_640) = None) by (vm_compute; reflexivity).
  pose proof (InstallDemolitionAnimationHook_unsupported 0x10001000 world_640 H) as T.
  cbv zeta in T. destruct T as (_ & _ & Hst & _ & _ & Hm & _).
  split; [exact H|]. split; [exact Hst | exact Hm].
Defined.

Lemma OnStart_eval (pfn pCOM : Z) (w : World) (w' : World) :
  InstallDemolitionAnimationHook pfn w = (Return tt, w') ->
  OnStart pfn pCOM w = (Return true, w').
Proof. intros H. unfold OnStart, bind. rewrite H. reflexivity. Qed.

(** C9. [OnStart] returns [true] whatever the installation did: the
    orchestrator ends in Patched, Unsupported or Failed, each of which
    is reached from some process state, and the value returned is the
    same in all three. *)
Theorem OnStart_returns_true (pfn pCOM : Z) (w : World) :
  let r := OnStart pfn pCOM w in
  fst r = Return true
  /\ (orchestrator_state (trace_since w (snd r)) = Patched
      \/ orchestrator_state (trace_since w (snd r)) = Unsupported
      \/ orchestrator_state (trace_since w (snd r)) = Failed)
  /\ orchestrator_state (trace_since world_641 (snd (OnStart pfn pCOM world_641))) = Patched
  /\ orchestrator_state (trace_since world_640 (snd (OnStart pfn pCOM world_640))) = Unsupported
  /\ orchestrator_state
       (trace_since world_641_unmapped (snd (OnStart pfn pCOM world_641_unmapped))) = Failed.
Proof.
  intros r.
  assert (Hcases : forall w0,
    let r0 := OnStart pfn pCOM w0 in
    fst r0 = Return true
    /\ orchestrator_state (trace_since w0 (snd r0))
       = (if decide (game_version w0 = 641)
          then if range_committed (pages w0) 0x4673bf 5 then Patched else Failed
          else Unsupported)).
  { intros w0 r0. subst r0.
    destruct (decide (game_version w0 = 641)) as [Hv|Hv].
    - destruct (range_committed (pages w0) 0x4673bf 5) eqn:Hc.
      + rewrite (OnStart_eval _ _ _ _ (hook_patched pfn w0 Hv Hc)). cbn [fst snd].
        split; [reflexivity|].
        erewrite trace_since_app.
        2:{ cbn [trace emit patched_world]. rewrite <- !app_assoc. reflexivity. }
        reflexivity.
      + rewrite (OnStart_eval _ _ _ _ (hook_failed pfn w0 Hv Hc)). cbn [fst snd].
        split; [reflexivity|].
        erewrite trace_since_app.
        2:{ cbn [trace emit refused_world]. rewrite <- !app_assoc. reflexivity. }
        reflexivity.
    - rewrite (OnStart_eval _ _ _ _ (hook_unsupported pfn w0 Hv)). cbn [fst snd].
      split; [reflexivity|].
      erewrite trace_since_app.
      2:{ cbn [trace emit]. rewrite <- !app_assoc. reflexivity. }
      reflexivity. }
  split; [apply Hcases|]. split.
  - destruct (Hcases w) as [_ Hs]. fold r in Hs. rewrite Hs.
    destruct (decide (game_version w = 641)); [|right; left; reflexivity].
    destruct (range_committed (pages w) 0x4673bf 5);
      [left; reflexivity | right; right; reflexivity].
  - split; [|split].
    + destruct (Hcases world_641) as [_ Hs]. rewrite Hs. vm_compute. reflexivity.
    + destruct (Hcases world_640) as [_ Hs]. rewrite Hs. vm_compute. reflexivity.
    + destruct (Hcases world_641_unmapped) as [_ Hs]. rewrite Hs. vm_compute. reflexivity.
Qed.

(** ** The address resolver *)

(** C5. The switch on the game version is the lookup in the patch-target
    table: version 641 yields 0x4673bf, the one entry of the table, and
    every other version yields the zero sentinel, which stands for "not
    found". The result is a function of the version alone, and it is the
    address the orchestrator then hands to the patcher. *)
Theorem hookTargetAddress_resolves (v : Z) :
  hookTargetAddress v = default 0 (resolve v)
  /\ hookTargetAddress 641 = 0x4673bf
  /\ resolve 641 = Some 0x4673bf
  /\ (resolve v = None <-> v <> 641)
  /\ (hookTargetAddress v = 0 <-> v <> 641)
  /\ (forall pfn w, game_version w = v ->
      exists rest,
        trace_since w (snd (InstallDemolitionAnimationHook pfn w))
        = EvGetGameVersion v :: rest
        /\ match resolve v with
           | Some target =>
               exists ok rest',
                 rest = EvVirtualProtect target 5 PAGE_EXECUTE_READWRITE ok :: rest'
           | None => rest = [EvLog Error fmt_unsupported [ArgInt v]]
           end).
Proof.
  assert (Hres : resolve v = if decide (v = 641) then Some 0x4673bf else None).
  { unfold resolve, PatchTargetTable.
    destruct (decide (v = 641)) as [->|Hne].
    - apply lookup_singleton_eq.
    - apply lookup_singleton_ne. congruence. }
  assert (Hhook : hookTargetAddress v = if decide (v = 641) then 0x4673bf else 0).
  { unfold hookTargetAddress.
    destruct (Z.eqb_spec v 641), (decide (v = 641)); congruence. }
  split; [|split; [|split; [|split; [|split]]]].
  - rewrite Hres, Hhook. destruct (decide (v = 641)); reflexivity.
  - reflexivity.
  - reflexivity.
  - rewrite Hres. destruct (decide (v = 641)); split; intros; congruence.
  - rewrite Hhook. destruct (decide (v = 641)); split; intros; congruence.
  - intros pfn w Hv. rewrite Hres.
    destruct (decide (v = 641)) as [Heq|Hne].
    + rewrite Heq in Hv. subst v.
      destruct (range_committed (pages w) 0x4673bf 5) eqn:Hc.
      * rewrite (hook_patched pfn w Hv Hc). cbn [snd].
        eexists. split.
        -- apply trace_since_app. cbn [trace emit patched_world].
           rewrite <- !app_assoc. reflexivity.
        -- eexists. eexists. reflexivity.
      * rewrite (hook_failed pfn w Hv Hc). cbn [snd].
        eexists. split.
        -- apply trace_since_app. cbn [trace emit refused_world].
           rewrite <- !app_assoc. reflexivity.
        -- eexists. eexists. reflexivity.
    + rewrite <- Hv in Hne. rewrite (hook_unsupported pfn w Hne). cbn [snd].
      eexists. split.
      * apply trace_since_app. cbn [trace emit]. rewrite <- !app_assoc.
        rewrite Hv. reflexivity.
      * reflexivity.
Qed.

(** ** The replacement function *)

Ltac run_step :=
  match goal with
  | |- context [match heap ?w !! ?p with _ => _ end] =>
      let o := fresh "o" in let E := fresh "E" in
      destruct (heap w !! p) as [o|] eqn:E; [destruct o|]
  | |- context [negb (?a =? ?b)] =>
      let E := fresh "E" in destruct (a =? b) eqn:E
  | |- context [if ?a =? ?b then _ else _] =>
      let E := fresh "E" in destruct (a =? b) eqn:E
  | |- context [string_empty ?s] =>
      let c := fresh "c" in let s' := fresh "s" in destruct s as [|c s']
  end.

Ltac run_name :=
  unfold IsOccupantTooSmallForDemolitionAnimation, GetOccupantExemplarName,
    AsPropertyHolder, GetProperty, GetPropertyValue, GetType, RefRZChar,
    string_assign, deref, undefined, WriteLineFormatted, bind, ret,
    valid_occupant, valid_name_value, name_unavailable;
  cbn [heap emit fst snd trace mem pages];
  repeat (run_step; cbn [heap emit fst snd trace mem pages string_empty negb];
          simplify_eq).

(** The debug build returns [true] exactly when every object the
    diagnostic read goes through is live. *)
Lemma debug_outcome (rz pOccupant unknown : Z) (w : World) :
  fst (IsOccupantTooSmallForDemolitionAnimation true rz pOccupant unknown w)
  = if valid_occupant rz (heap w) pOccupant then Return true else Undefined.
Proof. run_name; reflexivity. Qed.

Lemma release_run (rz pOccupant unknown : Z) (w : World) :
  IsOccupantTooSmallForDemolitionAnimation false rz pOccupant unknown w = (Return true, w).
Proof. reflexivity. Qed.

(** Whatever the build and the arguments, the calls the replacement
    function makes are object reads and at most a Debug-level line: no
    Error-level line, no store, no protection change. *)
Lemma replacement_calls (debug : bool) (rz pOccupant unknown : Z) (w : World) :
  exists d,
    trace (snd (IsOccupantTooSmallForDemolitionAnimation debug rz pOccupant unknown w))
    = trace w ++ d
    /\ forallb (fun e => is_deref e
                         || match e with EvLog Debug _ _ => true | _ => false end) d = true.
Proof.
  destruct debug.
  - run_name;
      (eexists; split; [rewrite <- ?app_assoc; reflexivity | reflexivity]).
  - exists []. rewrite release_run. cbn [snd]. rewrite app_nil_r. split; reflexivity.
Qed.

(** When the name is missing for one of the two guarded reasons, the
    debug build reads the objects and logs nothing. *)
Lemma debug_name_unavailable (rz pOccupant unknown : Z) (w : World) :
  name_unavailable rz (heap w) pOccupant = true ->
  exists d,
    IsOccupantTooSmallForDemolitionAnimation true rz pOccupant unknown w
    = (Return true, mkWorld (mem w) (pages w) (last_error w) (heap w) (game_version w)
                      (trace w ++ d))
    /\ forallb is_deref d = true.
Proof.
  run_name; intros Hn; try discriminate Hn;
    (eexists; split; [unfold emit; cbn [mem pages last_error heap game_version trace];
                      rewrite <- ?app_assoc; reflexivity | reflexivity]).
Qed.

Lemma filter_none {A} (P Q : A -> bool) (l : list A) :
  forallb P l = true -> (forall x, P x = true -> Q x = false) -> List.filter Q l = [].
Proof.
  intros Hall HPQ. induction l as [|x l IH]; [reflexivity|].
  simpl in Hall. apply andb_prop in Hall as [Hx Hl].
  simpl. rewrite (HPQ x Hx). apply IH, Hl.
Qed.

(** C3, as the code has it. The release build returns [true] for every
    pair of arguments, a null or dangling occupant pointer included; the
    debug build, which first reads the occupant's name, returns [true]
    whenever the objects that read goes through are live. *)
Theorem replacement_returns_true (debug : bool) (rz pOccupant unknown : Z) (w : World) :
  debug = false \/ valid_occupant rz (heap w) pOccupant = true ->
  fst (IsOccupantTooSmallForDemolitionAnimation debug rz pOccupant unknown w) = Return true.
Proof.
  intros H. destruct debug.
  - rewrite debug_outcome. destruct H as [H|H]; [discriminate H|].
    rewrite H. reflexivity.
  - reflexivity.
Qed.

Lemma replacement_returns_true_witness :
  fst (IsOccupantTooSmallForDemolitionAnimation false 9 0 0 world_heap) = Return true
  /\ valid_occupant 9 (heap world_heap) 100 = true
  /\ fst (IsOccupantTooSmallForDemolitionAnimation true 9 100 0 world_heap) = Return true.
Proof.
  assert (H : valid_occupant 9 (heap world_heap) 100 = true) by (vm_compute; reflexivity).
  split; [apply (replacement_returns_true false 9 0 0 world_heap); left; reflexivity|].
  split; [exact H|].
  apply (replacement_returns_true true 9 100 0 world_heap). right. exact H.
Defined.

(** C3 as stated fails: in a debug build a null occupant pointer is
    dereferenced, and the function does not return [true]. *)
Lemma replacement_null_occupant_counterexample :
  fst (IsOccupantTooSmallForDemolitionAnimation true 9 0 0 world_heap) = Undefined
  /\ ~ (forall debug rz pOccupant unknown w,
          fst (IsOccupantTooSmallForDemolitionAnimation debug rz pOccupant unknown w)
          = Return true).
Proof.
  split; [vm_compute; reflexivity|].
  intros H. specialize (H true 9 0 0 world_heap). vm_compute in H. discriminate H.
Qed.

(** C4, as the code has it. The replacement function never throws and
    never logs at Error level. A name that is missing because the
    property is absent or because its value is not a character array is
    guarded: the function returns [true] and logs nothing. The release
    build performs no diagnostic read at all and leaves the process
    state as it found it. *)
Theorem replacement_diagnostic_failures_guarded
    (debug : bool) (rz pOccupant unknown : Z) (w : World) :
  let r := IsOccupantTooSmallForDemolitionAnimation debug rz pOccupant unknown w in
  (forall e, fst r <> Throw e)
  /\ List.filter is_error_log (trace_since w (snd r)) = []
  /\ (name_unavailable rz (heap w) pOccupant = true ->
      fst r = Return true /\ List.filter is_log (trace_since w (snd r)) = [])
  /\ (debug = false -> r = (Return true, w)).
Proof.
  intros r. split; [|split; [|split]].
  - intros e. subst r. destruct debug.
    + rewrite debug_outcome. destruct (valid_occupant _ _ _); discriminate.
    + rewrite release_run. discriminate.
  - subst r. destruct (replacement_calls debug rz pOccupant unknown w) as (d & Ht & Hd).
    rewrite (trace_since_app _ _ _ Ht).
    apply (filter_none _ _ _ Hd).
    intros [] Hx; try reflexivity; try discriminate Hx.
    destruct level; try reflexivity; discriminate Hx.
  - intros Hn. subst r. destruct debug.
    + destruct (debug_name_unavailable rz pOccupant unknown w Hn) as (d & Hr & Hd).
      rewrite Hr. cbn [fst snd]. split; [reflexivity|].
      erewrite trace_since_app by reflexivity.
      apply (filter_none _ _ _ Hd).
      intros [] Hx; try reflexivity; discriminate Hx.
    + rewrite release_run. cbn [fst snd]. split; [reflexivity|].
      rewrite trace_since_refl. reflexivity.
  - intros ->. reflexivity.
Qed.

Lemma replacement_diagnostic_failures_guarded_witness :
  name_unavailable 9 (heap world_heap) 600 = true
  /\ fst (IsOccupantTooSmallForDemolitionAnimation true 9 600 0 world_heap) = Return true
  /\ name_unavailable 8 (heap world_heap) 100 = true
  /\ fst (IsOccupantTooSmallForDemolitionAnimation true 8 100 0 world_heap) = Return true.
Proof.
  assert (H1 : name_unavailable 9 (heap world_heap) 600 = true) by (vm_compute; reflexivity).
  assert (H2 : name_unavailable 8 (heap world_heap) 100 = true) by (vm_compute; reflexivity).
  pose proof (replacement_diagnostic_failures_guarded true 9 600 0 world_heap) as T1.
  pose proof (replacement_diagnostic_failures_guarded true 8 100 0 world_heap) as T2.
  cbv zeta in T1, T2.
  destruct T1 as (_ & _ & G1 & _). destruct T2 as (_ & _ & G2 & _).
  split; [exact H1|]. split; [exact (proj1 (G1 H1))|].
  split; [exact H2|]. exact (proj1 (G2 H2)).
Defined.

(** C4 as stated fails: in a debug build the read through an invalid
    occupant pointer is not guarded, and the undefined behaviour reaches
    the caller. *)
Lemma replacement_invalid_occupant_counterexample :
  fst (IsOccupantTooSmallForDemolitionAnimation true 9 0xDEAD 0 world_heap) = Undefined
  /\ ~ (forall debug rz pOccupant unknown w,
          fst (IsOccupantTooSmallForDemolitionAnimation debug rz pOccupant unknown w)
          <> Undefined).
Proof.
  split; [vm_compute; reflexivity|].
  intros H. apply (H true 9 0xDEAD 0 world_heap). vm_compute. reflexivity.
Qed.

(** C10. In the release build the result does not depend on the
    arguments or on the process state: any two calls return the same
    value, [true]; the call reads no object through either pointer,
    makes no other call, and leaves the process state unchanged. *)
Theorem replacement_release_independent
    (rz pOccupant1 unknown1 pOccupant2 unknown2 : Z) (w1 w2 : World) :
  let r1 := IsOccupantTooSmallForDemolitionAnimation false rz pOccupant1 unknown1 w1 in
  let r2 := IsOccupantTooSmallForDemolitionAnimation false rz pOccupant2 unknown2 w2 in
  fst r1 = fst r2
  /\ fst r1 = Return true
  /\ snd r1 = w1
  /\ trace_since w1 (snd r1) = []
  /\ List.filter is_deref (trace_since w1 (snd r1)) = [].
Proof.
  intros r1 r2. subst r1 r2. rewrite !release_run. cbn [fst snd].
  rewrite trace_since_refl. repeat split; reflexivity.
Qed.

(** * Further properties of the code *)

(** ** The orchestrator, beyond its end state *)

Lemma patched_run_trace (pfn : Z) (w : World) :
  trace_since w
    (emit (EvLog Info msg_disabled [])
       (patched_world 0x4673bf pfn (emit (EvGetGameVersion 641) w)))
  = [EvGetGameVersion 641;
     EvVirtualProtect 0x4673bf 5 PAGE_EXECUTE_READWRITE true;
     EvStore8 0x4673bf 0xE8;
     EvStore32 0x4673c0 (wrap32 (pfn - 0x4673bf - 5));
     EvLog Info msg_disabled []].
Proof.
  apply trace_since_app. cbn [trace emit].
  rewrite (patched_world_trace 0x4673bf pfn) by (vm_compute; discriminate).
  cbn [trace emit]. rewrite <- !app_assoc. reflexivity.
Qed.

Lemma failed_run_trace (w : World) :
  trace_since w
    (emit (EvLog Error fmt_failed [ArgWhat (ResultException ERROR_INVALID_ADDRESS)])
       (refused_world 0x4673bf (emit (EvGetGameVersion 641) w)))
  = [EvGetGameVersion 641;
     EvVirtualProtect 0x4673bf 5 PAGE_EXECUTE_READWRITE false;
     EvLog Error fmt_failed [ArgWhat (ResultException ERROR_INVALID_ADDRESS)]].
Proof.
  apply trace_since_app. cbn [trace emit refused_world].
  rewrite <- !app_assoc. reflexivity.
Qed.

Lemma unsupported_run_trace (w : World) :
  trace_since w
    (emit (EvLog Error fmt_unsupported [ArgInt (game_version w)])
       (emit (EvGetGameVersion (game_version w)) w))
  = [EvGetGameVersion (game_version w);
     EvLog Error fmt_unsupported [ArgInt (game_version w)]].
Proof.
  apply trace_since_app. cbn [trace emit]. rewrite <- !app_assoc. reflexivity.
Qed.

(** X1. For game version 641, when the protection change at 0x4673bf
    succeeds, the orchestrator returns normally after exactly five
    calls, in this order: the version query, the protection change, the
    opcode store, the displacement store and one Info-level line. The
    call site then holds 0xE8 followed by a displacement that leads to
    the replacement function, and its page is execute-read-write. *)
Theorem InstallDemolitionAnimationHook_patches_call_site
    (pfn oldProtect : Z) (w : World) :
  game_version w = 641 ->
  fst (VirtualProtect 0x4673bf 5 PAGE_EXECUTE_READWRITE w) = Return (true, oldProtect) ->
  let o := InstallDemolitionAnimationHook pfn w in
  fst o = Return tt
  /\ trace_since w (snd o)
     = [EvGetGameVersion 641;
        EvVirtualProtect 0x4673bf 5 PAGE_EXECUTE_READWRITE true;
        EvStore8 0x4673bf 0xE8;
        EvStore32 0x4673c0 (wrap32 (pfn - 0x4673bf - 5));
        EvLog Info msg_disabled []]
  /\ orchestrator_state (trace_since w (snd o)) = Patched
  /\ mem (snd o) !! 0x4673bf = Some 0xE8
  /\ load32 (mem (snd o)) 0x4673c0 = Some (wrap32 (pfn - 0x4673bf - 5))
  /\ wrap32 (0x4673bf + 5 + signed32 (wrap32 (pfn - 0x4673bf - 5))) = wrap32 pfn
  /\ protection_at (snd o) 0x4673bf = Some PAGE_EXECUTE_READWRITE
  /\ List.filter is_error_log (trace_since w (snd o)) = [].
Proof.
  intros Hv Hok o. apply VirtualProtect_succeeds in Hok.
  subst o. rewrite (hook_patched pfn w Hv Hok). cbn [fst snd].
  rewrite patched_run_trace.
  assert (H0 : 0 <= 0x4673bf) by lia.
  assert (H1 : 0x4673bf + 5 <= 2 ^ 32) by (vm_compute; discriminate).
  destruct (patched_world_bytes 0x4673bf pfn (emit (EvGetGameVersion 641) w) H0 H1)
    as (Hb0 & Hb1 & Hb2 & Hb3 & Hb4 & _).
  cbv zeta in Hb0, Hb1, Hb2, Hb3, Hb4.
  change (0x4673bf + 1) with 0x4673c0 in Hb1.
  change (0x4673bf + 2) with 0x4673c1 in Hb2.
  change (0x4673bf + 3) with 0x4673c2 in Hb3.
  change (0x4673bf + 4) with 0x4673c3 in Hb4.
  split; [reflexivity|]. split; [reflexivity|]. split; [reflexivity|].
  split; [exact Hb0|]. split.
  { unfold load32. cbn [mem emit].
    change (0x4673c0 + 1) with 0x4673c1. change (0x4673c0 + 2) with 0x4673c2.
    change (0x4673c0 + 3) with 0x4673c3.
    rewrite Hb1, Hb2, Hb3, Hb4, le32_byte_of.
    f_equal. apply wrap32_small, wrap32_range. }
  split; [apply call_lands|]. split; [|reflexivity].
  unfold protection_at. cbn [pages emit patched_world].
  apply protect_pages_in. apply page_in_range. lia.
Qed.

Lemma InstallDemolitionAnimationHook_patches_call_site_witness :
  game_version world_641 = 641
  /\ fst (VirtualProtect 0x4673bf 5 PAGE_EXECUTE_READWRITE world_641) = Return (true, 0x20)
  /\ load32 (mem (snd (InstallDemolitionAnimationHook 0x10001000 world_641))) 0x4673c0
     = Some 0x0fb99c3c.
Proof.
  assert (H : fst (VirtualProtect 0x4673bf 5 PAGE_EXECUTE_READWRITE world_641)
              = Return (true, 0x20)) by (vm_compute; reflexivity).
  pose proof (InstallDemolitionAnimationHook_patches_call_site
                0x10001000 0x20 world_641 eq_refl H) as T.
  cbv zeta in T. destruct T as (_ & _ & _ & _ & Hld & _).
  split; [reflexivity|]. split; [exact H|]. exact Hld.
Defined.

(** X2. Whatever the process state, one run of the orchestrator returns
    normally, writes exactly one log line, and leaves the host objects
    and the game version alone. It ends in Patched exactly when the
    version is 641 and the protection change succeeds; in every other
    run memory and page protections are as they were. *)
Theorem InstallDemolitionAnimationHook_run (pfn : Z) (w : World) :
  let o := InstallDemolitionAnimationHook pfn w in
  let d := trace_since w (snd o) in
  fst o = Return tt
  /\ length (List.filter is_log d) = 1%nat
  /\ heap (snd o) = heap w
  /\ game_version (snd o) = game_version w
  /\ (orchestrator_state d = Patched
      <-> game_version w = 641 /\ range_committed (pages w) 0x4673bf 5 = true)
  /\ (orchestrator_state d <> Patched -> mem (snd o) = mem w /\ pages (snd o) = pages w)
  /\ (orchestrator_state d = Patched -> List.filter is_error_log d = []).
Proof.
  intros o d. subst d o.
  destruct (decide (game_version w = 641)) as [Hv|Hv].
  - destruct (range_committed (pages w) 0x4673bf 5) eqn:Hc.
    + rewrite (hook_patched pfn w Hv Hc). cbn [fst snd].
      rewrite patched_run_trace.
      split; [reflexivity|]. split; [reflexivity|]. split; [reflexivity|].
      split; [reflexivity|]. split; [|split].
      * split; [intros _; split; [exact Hv | reflexivity] | intros _; reflexivity].
      * intros Hne. exfalso. apply Hne. reflexivity.
      * intros _. reflexivity.
    + rewrite (hook_failed pfn w Hv Hc). cbn [fst snd].
      rewrite failed_run_trace.
      split; [reflexivity|]. split; [reflexivity|]. split; [reflexivity|].
      split; [reflexivity|]. split; [|split].
      * split; [intros H; discriminate H | intros [_ H]; discriminate H].
      * intros _. split; reflexivity.
      * intros H. discriminate H.
  - rewrite (hook_unsupported pfn w Hv). cbn [fst snd].
    rewrite unsupported_run_trace.
    split; [reflexivity|]. split; [reflexivity|]. split; [reflexivity|].
    split; [reflexivity|]. split; [|split].
    + split; [intros H; discriminate H | intros [H _]; contradiction].
    + intros _. split; reflexivity.
    + intros H. discriminate H.
Qed.

(** ** The patcher: what a patch depends on, and what it leaves alone *)

Lemma patched_world_load32 (targetAddress pfnFunc : Z) (w : World) :
  0 <= targetAddress -> targetAddress + 5 <= 2 ^ 32 ->
  load32 (mem (patched_world targetAddress pfnFunc w)) (targetAddress + 1)
  = Some (wrap32 (pfnFunc - targetAddress - 5)).
Proof.
  intros H0 H1.
  destruct (patched_world_bytes targetAddress pfnFunc w H0 H1)
    as (_ & Hb1 & Hb2 & Hb3 & Hb4 & _).
  cbv zeta in Hb1, Hb2, Hb3, Hb4. unfold load32.
  replace (targetAddress + 1 + 1) with (targetAddress + 2) by lia.
  replace (targetAddress + 1 + 2) with (targetAddress + 3) by lia.
  replace (targetAddress + 1 + 3) with (targetAddress + 4) by lia.
  rewrite Hb1, Hb2, Hb3, Hb4, le32_byte_of.
  f_equal. apply wrap32_small, wrap32_range.
Qed.

(** The patched memory is a function of the bytes outside the call site
    only: what was at the call site before is overwritten. *)
Lemma patched_mem_eq (targetAddress pfnFunc : Z) (w1 w2 : World) :
  0 <= targetAddress -> targetAddress + 5 <= 2 ^ 32 ->
  (forall a, ~ (targetAddress <= a < targetAddress + 5) -> mem w1 !! a = mem w2 !! a) ->
  mem (patched_world targetAddress pfnFunc w1) = mem (patched_world targetAddress pfnFunc w2).
Proof.
  intros H0 H1 Hout. apply map_eq. intros a.
  destruct (patched_world_bytes targetAddress pfnFunc w1 H0 H1)
    as (Ha0 & Ha1 & Ha2 & Ha3 & Ha4 & Haf).
  destruct (patched_world_bytes targetAddress pfnFunc w2 H0 H1)
    as (Hb0 & Hb1 & Hb2 & Hb3 & Hb4 & Hbf).
  cbv zeta in *.
  destruct (decide (targetAddress <= a < targetAddress + 5)) as [Hin|Hno].
  - assert (Hc : a = targetAddress \/ a = targetAddress + 1 \/ a = targetAddress + 2
                 \/ a = targetAddress + 3 \/ a = targetAddress + 4) by lia.
    destruct Hc as [->|[->|[->|[->| ->]]]]; congruence.
  - rewrite (Haf a Hno), (Hbf a Hno). apply Hout, Hno.
Qed.

Lemma signed32_wrap32 (z : Z) : - 2 ^ 31 <= z < 2 ^ 31 -> signed32 (wrap32 z) = z.
Proof.
  intros H. unfold signed32, wrap32.
  change (2 ^ 32) with 4294967296. change (2 ^ 31) with 2147483648 in *.
  destruct (Z.ltb_spec (z mod 4294967296) 2147483648);
    Z.div_mod_to_equations; lia.
Qed.


(** X3. When the host calls [OnStart] again, the second run returns
    [true], ends in the same state as the first, and leaves memory and
    page protections exactly as the first run left them. *)
Theorem OnStart_twice (pfn pCOM pCOM' : Z) (w : World) :
  let first := OnStart pfn pCOM w in
  let second := OnStart pfn pCOM' (snd first) in
  fst second = Return true
  /\ orchestrator_state (trace_since (snd first) (snd second))
     = orchestrator_state (trace_since w (snd first))
  /\ mem (snd second) = mem (snd first)
  /\ pages (snd second) = pages (snd first).
Proof.
  intros first second. subst second first.
  destruct (decide (game_version w = 641)) as [Hv|Hv].
  - destruct (range_committed (pages w) 0x4673bf 5) eqn:Hc.
    + rewrite (OnStart_eval _ pCOM _ _ (hook_patched pfn w Hv Hc)). cbn [snd].
      set (w1 := emit (EvLog Info msg_disabled [])
                   (patched_world 0x4673bf pfn (emit (EvGetGameVersion 641) w))).
      assert (Hc1 : range_committed (pages w1) 0x4673bf 5 = true).
      { subst w1. cbn [pages emit patched_world]. apply range_committed_protect, Hc. }
      assert (Hv1 : game_version w1 = 641) by exact Hv.
      rewrite (OnStart_eval _ pCOM' _ _ (hook_patched pfn w1 Hv1 Hc1)). cbn [fst snd].
      rewrite patched_run_trace. subst w1. rewrite patched_run_trace.
      split; [reflexivity|]. split; [reflexivity|]. split.
      * cbn [mem emit].
        assert (H0 : 0 <= 0x4673bf) by lia.
        assert (H1 : 0x4673bf + 5 <= 2 ^ 32) by (vm_compute; discriminate).
        apply patched_mem_eq; [exact H0 | exact H1 |].
        intros a Ha. cbn [mem emit].
        destruct (patched_world_bytes 0x4673bf pfn (emit (EvGetGameVersion 641) w) H0 H1)
          as (_ & _ & _ & _ & _ & Hf).
        cbv zeta in Hf. rewrite (Hf a Ha). reflexivity.
      * cbn [pages emit patched_world]. apply protect_pages_idem.
    + rewrite (OnStart_eval _ pCOM _ _ (hook_failed pfn w Hv Hc)). cbn [snd].
      set (w1 := emit (EvLog Error fmt_failed [ArgWhat (ResultException ERROR_INVALID_ADDRESS)])
                   (refused_world 0x4673bf (emit (EvGetGameVersion 641) w))).
      assert (Hc1 : range_committed (pages w1) 0x4673bf 5 = false) by exact Hc.
      assert (Hv1 : game_version w1 = 641) by exact Hv.
      rewrite (OnStart_eval _ pCOM' _ _ (hook_failed pfn w1 Hv1 Hc1)). cbn [fst snd].
      rewrite failed_run_trace. subst w1. rewrite failed_run_trace.
      repeat split; reflexivity.
  - rewrite (OnStart_eval _ pCOM _ _ (hook_unsupported pfn w Hv)). cbn [snd].
    set (w1 := emit (EvLog Error fmt_unsupported [ArgInt (game_version w)])
                 (emit (EvGetGameVersion (game_version w)) w)).
    assert (Hv1 : game_version w1 <> 641) by exact Hv.
    rewrite (OnStart_eval _ pCOM' _ _ (hook_unsupported pfn w1 Hv1)). cbn [fst snd].
    rewrite unsupported_run_trace. subst w1. rewrite unsupported_run_trace.
    repeat split; reflexivity.
Qed.

(** X4. Hooking the same call site again with another function makes
    the later one win: the outcome, memory and page protections are
    those of hooking the second function alone. *)
Theorem InstallCallHook_last_hook_wins (targetAddress pfn1 pfn2 : Z) (w : World) :
  let first := InstallCallHook targetAddress pfn1 w in
  let second := InstallCallHook targetAddress pfn2 (snd first) in
  let alone := InstallCallHook targetAddress pfn2 w in
  fst second = fst alone
  /\ mem (snd second) = mem (snd alone)
  /\ pages (snd second) = pages (snd alone).
Proof.
  intros first second alone. subst second alone first.
  destruct (range_committed (pages w) targetAddress 5) eqn:Hc.
  - destruct (range_committed_bounds _ _ _ Hc) as (H0 & _ & H1).
    rewrite (InstallCallHook_committed _ pfn1 _ Hc),
      (InstallCallHook_committed _ pfn2 _ Hc). cbn [fst snd].
    assert (Hc' : range_committed (pages (patched_world targetAddress pfn1 w))
                    targetAddress 5 = true).
    { unfold patched_world. cbn [pages]. apply range_committed_protect, Hc. }
    rewrite (InstallCallHook_committed _ pfn2 _ Hc'). cbn [fst snd].
    split; [reflexivity|]. split.
    + apply patched_mem_eq; [exact H0 | exact H1 |].
      destruct (patched_world_bytes targetAddress pfn1 w H0 H1)
        as (_ & _ & _ & _ & _ & Hf).
      exact Hf.
    + unfold patched_world. cbn [pages]. apply protect_pages_idem.
  - rewrite (InstallCallHook_refused _ pfn1 _ Hc),
      (InstallCallHook_refused _ pfn2 _ Hc). cbn [fst snd].
    assert (Hc' : range_committed (pages (refused_world targetAddress w))
                    targetAddress 5 = false) by exact Hc.
    rewrite (InstallCallHook_refused _ pfn2 _ Hc'). cbn [fst snd].
    repeat split; reflexivity.
Qed.

(** X6. The displacement is computed with unsigned 32-bit subtraction;
    whenever the true difference [pfnFunc - targetAddress - 5] fits a
    signed 32-bit integer, also when it is negative (a call backwards),
    the four bytes stored read back, as a signed integer, as exactly
    that difference. *)
Theorem InstallCallHook_signed_displacement
    (targetAddress pfnFunc oldProtect : Z) (w : World) :
  fst (VirtualProtect targetAddress 5 PAGE_EXECUTE_READWRITE w) = Return (true, oldProtect) ->
  - 2 ^ 31 <= pfnFunc - targetAddress - 5 < 2 ^ 31 ->
  exists u,
    load32 (mem (snd (InstallCallHook targetAddress pfnFunc w))) (targetAddress + 1) = Some u
    /\ signed32 u = pfnFunc - targetAddress - 5.
Proof.
  intros Hok Hfit. apply VirtualProtect_succeeds in Hok.
  destruct (range_committed_bounds _ _ _ Hok) as (H0 & _ & H1).
  rewrite (InstallCallHook_committed _ pfnFunc _ Hok). cbn [snd].
  exists (wrap32 (pfnFunc - targetAddress - 5)). split.
  - apply patched_world_load32; assumption.
  - apply signed32_wrap32, Hfit.
Qed.

Lemma InstallCallHook_signed_displacement_witness :
  fst (VirtualProtect 0x1800 5 PAGE_EXECUTE_READWRITE world_two_pages) = Return (true, 0x20)
  /\ exists u,
       load32 (mem (snd (InstallCallHook 0x1800 0x1000 world_two_pages))) 0x1801 = Some u
       /\ signed32 u = - 0x805.
Proof.
  assert (H : fst (VirtualProtect 0x1800 5 PAGE_EXECUTE_READWRITE world_two_pages)
              = Return (true, 0x20)) by (vm_compute; reflexivity).
  split; [exact H|].
  apply (InstallCallHook_signed_displacement 0x1800 0x1000 0x20 world_two_pages H).
  change (2 ^ 31) with 2147483648. lia.
Defined.

Lemma protect_pages_committed (ps : list Z) (prot : Z) (pg : gmap Z Z) (p : Z) :
  (forall q, q ∈ ps -> is_Some (pg !! q)) ->
  is_Some (protect_pages ps prot pg !! p) <-> is_Some (pg !! p).
Proof.
  intros Hps. destruct (decide (p ∈ ps)) as [Hin|Hout].
  - rewrite (protect_pages_in _ _ _ _ Hin). split; [intros _; apply Hps, Hin | eauto].
  - rewrite (protect_pages_out _ _ _ _ Hout). reflexivity.
Qed.

Lemma range_committed_pages (pg : gmap Z Z) (lpAddress dwSize : Z) :
  range_committed pg lpAddress dwSize = true ->
  forall q, q ∈ range_pages lpAddress dwSize -> is_Some (pg !! q).
Proof.
  unfold range_committed. intros H q Hq.
  apply andb_prop in H as [_ Hall]. rewrite forallb_forall in Hall.
  apply list_elem_of_In in Hq. apply Hall in Hq.
  apply bool_decide_eq_true in Hq. exact Hq.
Qed.




Lemma forallb_pointwise {A} (f g : A -> bool) (l : list A) :
  (forall x, f x = g x) -> forallb f l = forallb g l.
Proof.
  intros H. induction l as [|x l IH]; [reflexivity|].
  simpl. rewrite H, IH. reflexivity.
Qed.

(** A successful protection change commits and releases nothing, so it
    does not change whether another range can be protected. *)
Lemma range_committed_protect_other (pg : gmap Z Z) (a1 n1 a2 n2 prot : Z) :
  range_committed pg a1 n1 = true ->
  range_committed (protect_pages (range_pages a1 n1) prot pg) a2 n2
  = range_committed pg a2 n2.
Proof.
  intros Hc. unfold range_committed. f_equal.
  apply forallb_pointwise. intros p.
  apply bool_decide_ext. apply protect_pages_committed.
  apply range_committed_pages, Hc.
Qed.

Lemma protect_pages_comm (ps1 ps2 : list Z) (prot : Z) (pg : gmap Z Z) :
  protect_pages ps2 prot (protect_pages ps1 prot pg)
  = protect_pages ps1 prot (protect_pages ps2 prot pg).
Proof.
  apply map_eq. intros p.
  destruct (decide (p ∈ ps1)) as [H1|H1], (decide (p ∈ ps2)) as [H2|H2].
  - rewrite !protect_pages_in by assumption. reflexivity.
  - rewrite (protect_pages_out ps2) by assumption.
    rewrite !protect_pages_in by assumption. reflexivity.
  - rewrite (protect_pages_in ps2) by assumption.
    rewrite (protect_pages_out ps1) by assumption.
    rewrite protect_pages_in by assumption. reflexivity.
  - rewrite !protect_pages_out by assumption. reflexivity.
Qed.

(** Inside the call site the patched bytes do not depend on the state
    the patch started from. *)
Lemma patched_lookup_in (targetAddress pfnFunc : Z) (w1 w2 : World) (a : Z) :
  0 <= targetAddress -> targetAddress + 5 <= 2 ^ 32 ->
  targetAddress <= a < targetAddress + 5 ->
  mem (patched_world targetAddress pfnFunc w1) !! a
  = mem (patched_world targetAddress pfnFunc w2) !! a.
Proof.
  intros H0 H1 Hin.
  destruct (patched_world_bytes targetAddress pfnFunc w1 H0 H1)
    as (Ha0 & Ha1 & Ha2 & Ha3 & Ha4 & _).
  destruct (patched_world_bytes targetAddress pfnFunc w2 H0 H1)
    as (Hb0 & Hb1 & Hb2 & Hb3 & Hb4 & _).
  cbv zeta in *.
  assert (Hc : a = targetAddress \/ a = targetAddress + 1 \/ a = targetAddress + 2
               \/ a = targetAddress + 3 \/ a = targetAddress + 4) by lia.
  destruct Hc as [->|[->|[->|[->| ->]]]]; congruence.
Qed.

Lemma patched_lookup_out (targetAddress pfnFunc : Z) (w : World) (a : Z) :
  0 <= targetAddress -> targetAddress + 5 <= 2 ^ 32 ->
  ~ (targetAddress <= a < targetAddress + 5) ->
  mem (patched_world targetAddress pfnFunc w) !! a = mem w !! a.
Proof.
  intros H0 H1 Hout.
  destruct (patched_world_bytes targetAddress pfnFunc w H0 H1) as (_ & _ & _ & _ & _ & Hf).
  apply Hf, Hout.
Qed.

Lemma patched_mem_comm (t1 f1 t2 f2 : Z) (w : World) :
  0 <= t1 -> t1 + 5 <= 2 ^ 32 -> 0 <= t2 -> t2 + 5 <= 2 ^ 32 ->
  t1 + 5 <= t2 \/ t2 + 5 <= t1 ->
  mem (patched_world t2 f2 (patched_world t1 f1 w))
  = mem (patched_world t1 f1 (patched_world t2 f2 w)).
Proof.
  intros A0 A1 B0 B1 Hdis. apply map_eq. intros a.
  destruct (decide (t1 <= a < t1 + 5)) as [In1|Out1].
  - rewrite (patched_lookup_out t2 f2) by (assumption || lia).
    apply patched_lookup_in; assumption.
  - rewrite (patched_lookup_out t1 f1 (patched_world t2 f2 w)) by assumption.
    destruct (decide (t2 <= a < t2 + 5)) as [In2|Out2].
    + apply patched_lookup_in; assumption.
    + rewrite !patched_lookup_out by assumption. reflexivity.
Qed.

(** X5. Hooks at two call sites that do not overlap can be installed in
    either order: each call has the same outcome in both orders, and
    memory and page protections end up the same. *)
Theorem InstallCallHook_disjoint_commute (t1 f1 t2 f2 : Z) (w : World) :
  t1 + 5 <= t2 \/ t2 + 5 <= t1 ->
  let a1 := InstallCallHook t1 f1 w in
  let a2 := InstallCallHook t2 f2 (snd a1) in
  let b2 := InstallCallHook t2 f2 w in
  let b1 := InstallCallHook t1 f1 (snd b2) in
  fst a1 = fst b1 /\ fst a2 = fst b2
  /\ mem (snd a2) = mem (snd b1)
  /\ pages (snd a2) = pages (snd b1).
Proof.
  intros Hdis a1 a2 b2 b1. subst b1 a2 a1 b2.
  destruct (range_committed (pages w) t1 5) eqn:Hc1;
    destruct (range_committed (pages w) t2 5) eqn:Hc2.
  - destruct (range_committed_bounds _ _ _ Hc1) as (A0 & _ & A1).
    destruct (range_committed_bounds _ _ _ Hc2) as (B0 & _ & B1).
    rewrite (InstallCallHook_committed _ f1 _ Hc1), (InstallCallHook_committed _ f2 _ Hc2).
    cbn [fst snd].
    assert (Hc2' : range_committed (pages (patched_world t1 f1 w)) t2 5 = true).
    { unfold patched_world. cbn [pages].
      rewrite (range_committed_protect_other _ _ _ _ _ _ Hc1). exact Hc2. }
    assert (Hc1' : range_committed (pages (patched_world t2 f2 w)) t1 5 = true).
    { unfold patched_world. cbn [pages].
      rewrite (range_committed_protect_other _ _ _ _ _ _ Hc2). exact Hc1. }
    rewrite (InstallCallHook_committed _ f2 _ Hc2'), (InstallCallHook_committed _ f1 _ Hc1').
    cbn [fst snd].
    split; [reflexivity|]. split; [reflexivity|]. split.
    + apply patched_mem_comm; assumption.
    + unfold patched_world. cbn [pages]. apply protect_pages_comm.
  - rewrite (InstallCallHook_committed _ f1 _ Hc1), (InstallCallHook_refused _ f2 _ Hc2).
    cbn [fst snd].
    assert (Hc2' : range_committed (pages (patched_world t1 f1 w)) t2 5 = false).
    { unfold patched_world. cbn [pages].
      rewrite (range_committed_protect_other _ _ _ _ _ _ Hc1). exact Hc2. }
    assert (Hc1' : range_committed (pages (refused_world t2 w)) t1 5 = true) by exact Hc1.
    rewrite (InstallCallHook_refused _ f2 _ Hc2'), (InstallCallHook_committed _ f1 _ Hc1').
    cbn [fst snd]. repeat split; reflexivity.
  - rewrite (InstallCallHook_refused _ f1 _ Hc1), (InstallCallHook_committed _ f2 _ Hc2).
    cbn [fst snd].
    assert (Hc2' : range_committed (pages (refused_world t1 w)) t2 5 = true) by exact Hc2.
    assert (Hc1' : range_committed (pages (patched_world t2 f2 w)) t1 5 = false).
    { unfold patched_world. cbn [pages].
      rewrite (range_committed_protect_other _ _ _ _ _ _ Hc2). exact Hc1. }
    rewrite (InstallCallHook_committed _ f2 _ Hc2'), (InstallCallHook_refused _ f1 _ Hc1').
    cbn [fst snd]. repeat split; reflexivity.
  - rewrite (InstallCallHook_refused _ f1 _ Hc1), (InstallCallHook_refused _ f2 _ Hc2).
    cbn [fst snd].
    assert (Hc2' : range_committed (pages (refused_world t1 w)) t2 5 = false) by exact Hc2.
    assert (Hc1' : range_committed (pages (refused_world t2 w)) t1 5 = false) by exact Hc1.
    rewrite (InstallCallHook_refused _ f2 _ Hc2'), (InstallCallHook_refused _ f1 _ Hc1').
    cbn [fst snd]. repeat split; reflexivity.
Qed.

Lemma InstallCallHook_disjoint_commute_witness :
  (0x1000 + 5 <= 0x1ffe \/ 0x1ffe + 5 <= 0x1000)
  /\ mem (snd (InstallCallHook 0x1ffe 0x3000
              (snd (InstallCallHook 0x1000 0x2000 world_two_pages))))
  = mem (snd (InstallCallHook 0x1000 0x2000
                (snd (InstallCallHook 0x1ffe 0x3000 world_two_pages)))).
Proof.
  assert (H : 0x1000 + 5 <= 0x1ffe \/ 0x1ffe + 5 <= 0x1000) by (left; lia).
  pose proof (InstallCallHook_disjoint_commute 0x1000 0x2000 0x1ffe 0x3000
                world_two_pages H) as T.
  cbv zeta in T. destruct T as (_ & _ & Hm & _). split; [exact H | exact Hm].
Defined.

(** ** The diagnostic read *)

Ltac run_read :=
  unfold GetOccupantExemplarName,
    AsPropertyHolder, GetProperty, GetPropertyValue, GetType, RefRZChar,
    string_assign, deref, undefined, bind, ret, name_unavailable;
  cbn [heap emit fst snd trace mem pages];
  repeat (run_step; cbn [heap emit fst snd trace mem pages negb]; simplify_eq).

Ltac close_run :=
  unfold emit; cbn [mem pages last_error heap game_version trace];
  rewrite <- ?app_assoc; reflexivity.

(** Both builds, all arguments: the state the replacement function
    leaves differs from the one it found only by the calls recorded. *)
Lemma replacement_state (debug : bool) (rz pOccupant unknown : Z) (w : World) :
  exists d,
    snd (IsOccupantTooSmallForDemolitionAnimation debug rz pOccupant unknown w)
    = mkWorld (mem w) (pages w) (last_error w) (heap w) (game_version w) (trace w ++ d)
    /\ forallb (fun e => is_deref e || is_log e) d = true
    /\ (length (List.filter is_log d) <= 1)%nat.
Proof.
  destruct debug.
  - run_name;
      (eexists; split; [close_run | split; [reflexivity | cbn; lia]]).
  - exists []. rewrite release_run. cbn [snd]. rewrite app_nil_r.
    destruct w. split; [reflexivity|]. split; [reflexivity | cbn; lia].
Qed.

Lemma read_state (rz pOccupant : Z) (w : World) :
  exists d,
    snd (GetOccupantExemplarName rz pOccupant w)
    = mkWorld (mem w) (pages w) (last_error w) (heap w) (game_version w) (trace w ++ d)
    /\ forallb is_deref d = true
    /\ (1 <= length d <= 6)%nat.
Proof.
  run_read; (eexists; split; [close_run | split; [reflexivity | cbn; lia]]).
Qed.

Lemma read_outcome (rz pOccupant : Z) (w : World) :
  (forall e, fst (GetOccupantExemplarName rz pOccupant w) <> Throw e)
  /\ (name_unavailable rz (heap w) pOccupant = true ->
      fst (GetOccupantExemplarName rz pOccupant w) = Return EmptyString).
Proof.
  run_read; (split; [intros e; discriminate | intros Hn; try discriminate Hn; reflexivity]).
Qed.

(** The run of the read over a well-formed occupant whose exemplar name
    is a character array. *)
Lemma read_named_run (rz pOccupant holder q v c : Z) (ps : gmap Z Z) (s : string) (w : World) :
  heap w !! pOccupant = Some (ObjOccupant holder) ->
  heap w !! holder = Some (ObjPropertyHolder ps) ->
  ps !! kExemplarName = Some q -> q <> 0 ->
  heap w !! q = Some (ObjProperty v) ->
  heap w !! v = Some (ObjVariant rz c) ->
  heap w !! c = Some (ObjCString s) ->
  GetOccupantExemplarName rz pOccupant w
  = (Return s,
     mkWorld (mem w) (pages w) (last_error w) (heap w) (game_version w)
       (trace w ++ [EvDeref pOccupant; EvDeref holder; EvDeref q;
                    EvDeref v; EvDeref v; EvDeref c])).
Proof.
  intros Hp Hh Hq Hq0 Hpr Hv Hc.
  unfold GetOccupantExemplarName, AsPropertyHolder, GetProperty, GetPropertyValue,
    GetType, RefRZChar, string_assign, deref, bind, ret.
  cbn [heap emit]. rewrite Hp. cbn [heap emit]. rewrite Hh, Hq. cbn [default from_option id].
  apply Z.eqb_neq in Hq0. rewrite Hq0. cbn [negb heap emit].
  rewrite Hpr. cbn [heap emit]. rewrite Hv. cbn [heap emit].
  rewrite Z.eqb_refl. cbn [heap emit]. rewrite Hv. cbn [heap emit]. rewrite Hc.
  f_equal. close_run.
Qed.

Lemma read_defined (rz pOccupant : Z) (w : World) :
  fst (GetOccupantExemplarName rz pOccupant w) = Undefined
  <-> valid_occupant rz (heap w) pOccupant = false.
Proof.
  unfold valid_occupant, valid_name_value.
  run_read; split; intros H; first [reflexivity | discriminate H].
Qed.

(** X9. For an occupant whose property holder has the exemplar-name
    property (id 0x20) with a character-array value,
    [GetOccupantExemplarName] returns that string. It reads the
    occupant, the holder, the property, the value (once for its type,
    once for its characters) and the characters, in this order, and
    changes nothing. *)
Theorem GetOccupantExemplarName_reads_name
    (rz pOccupant holder q v c : Z) (ps : gmap Z Z) (s : string) (w : World) :
  heap w !! pOccupant = Some (ObjOccupant holder) ->
  heap w !! holder = Some (ObjPropertyHolder ps) ->
  ps !! kExemplarName = Some q -> q <> 0 ->
  heap w !! q = Some (ObjProperty v) ->
  heap w !! v = Some (ObjVariant rz c) ->
  heap w !! c = Some (ObjCString s) ->
  let r := GetOccupantExemplarName rz pOccupant w in
  fst r = Return s
  /\ trace_since w (snd r)
     = [EvDeref pOccupant; EvDeref holder; EvDeref q; EvDeref v; EvDeref v; EvDeref c]
  /\ mem (snd r) = mem w /\ pages (snd r) = pages w /\ heap (snd r) = heap w.
Proof.
  intros Hp Hh Hq Hq0 Hpr Hv Hc r. subst r.
  rewrite (read_named_run rz pOccupant holder q v c ps s w Hp Hh Hq Hq0 Hpr Hv Hc).
  cbn [fst snd]. split; [reflexivity|]. split.
  - apply trace_since_app. reflexivity.
  - repeat split; reflexivity.
Qed.

Lemma GetOccupantExemplarName_reads_name_witness :
  fst (GetOccupantExemplarName 9 100 world_heap) = Return "Foo"%string.
Proof.
  apply (GetOccupantExemplarName_reads_name 9 100 200 300 400 500
           {[ 0x20 := 300 ]} "Foo"%string world_heap);
    solve [vm_compute; reflexivity | discriminate].
Defined.

(** X10. [GetOccupantExemplarName] only reads: for every pointer and
    every heap it never throws, makes between one and six object reads
    and no other call, and leaves memory, page protections, host objects,
    last-error code and game version unchanged. Its outcome is undefined
    exactly when some object on its way is not live, and it is the empty
    string when the property is absent or is not a character array. *)
Theorem GetOccupantExemplarName_read_only (rz pOccupant : Z) (w : World) :
  let r := GetOccupantExemplarName rz pOccupant w in
  (forall e, fst r <> Throw e)
  /\ (fst r = Undefined <-> valid_occupant rz (heap w) pOccupant = false)
  /\ (name_unavailable rz (heap w) pOccupant = true -> fst r = Return EmptyString)
  /\ forallb is_deref (trace_since w (snd r)) = true
  /\ (1 <= length (trace_since w (snd r)) <= 6)%nat
  /\ mem (snd r) = mem w /\ pages (snd r) = pages w /\ heap (snd r) = heap w
  /\ last_error (snd r) = last_error w /\ game_version (snd r) = game_version w.
Proof.
  intros r. subst r.
  destruct (read_outcome rz pOccupant w) as (Hthrow & Hempty).
  destruct (read_state rz pOccupant w) as (d & Hs & Hd & Hlen).
  split; [exact Hthrow|]. split; [apply read_defined|]. split; [exact Hempty|].
  rewrite Hs. erewrite trace_since_app by reflexivity.
  split; [exact Hd|]. split; [exact Hlen|]. repeat split; reflexivity.
Qed.

(** X11. In a debug build, for an occupant whose exemplar name is the
    string [s], the replacement function returns [true] after the six
    object reads and, when [s] is not empty, exactly one Debug-level
    line carrying [s]; for an empty name it writes no line. *)
Theorem replacement_debug_logs_name
    (rz pOccupant unknown holder q v c : Z) (ps : gmap Z Z) (s : string) (w : World) :
  heap w !! pOccupant = Some (ObjOccupant holder) ->
  heap w !! holder = Some (ObjPropertyHolder ps) ->
  ps !! kExemplarName = Some q -> q <> 0 ->
  heap w !! q = Some (ObjProperty v) ->
  heap w !! v = Some (ObjVariant rz c) ->
  heap w !! c = Some (ObjCString s) ->
  let r := IsOccupantTooSmallForDemolitionAnimation true rz pOccupant unknown w in
  fst r = Return true
  /\ trace_since w (snd r)
     = [EvDeref pOccupant; EvDeref holder; EvDeref q; EvDeref v; EvDeref v; EvDeref c]
       ++ (if string_empty s then []
           else [EvLog Debug fmt_demolished [ArgString s]]).
Proof.
  intros Hp Hh Hq Hq0 Hpr Hv Hc r. subst r.
  unfold IsOccupantTooSmallForDemolitionAnimation, bind.
  rewrite (read_named_run rz pOccupant holder q v c ps s w Hp Hh Hq Hq0 Hpr Hv Hc).
  destruct s as [|ch s']; cbn [string_empty negb ret WriteLineFormatted fst snd].
  - split; [reflexivity|]. apply trace_since_app. cbn [trace]. reflexivity.
  - split; [reflexivity|]. apply trace_since_app. cbn [trace emit].
    rewrite <- app_assoc. reflexivity.
Qed.

Lemma replacement_debug_logs_name_witness :
  trace_since world_heap
    (snd (IsOccupantTooSmallForDemolitionAnimation true 9 100 0 world_heap))
  = [EvDeref 100; EvDeref 200; EvDeref 300; EvDeref 400; EvDeref 400; EvDeref 500;
     EvLog Debug fmt_demolished [ArgString "Foo"%string]]
  /\ trace_since world_unnamed
       (snd (IsOccupantTooSmallForDemolitionAnimation true 9 800 0 world_unnamed))
     = [EvDeref 800; EvDeref 810; EvDeref 820; EvDeref 830; EvDeref 830; EvDeref 840].
Proof.
  split.
  - apply (replacement_debug_logs_name 9 100 0 200 300 400 500
             {[ 0x20 := 300 ]} "Foo"%string world_heap);
      solve [vm_compute; reflexivity | discriminate].
  - apply (replacement_debug_logs_name 9 800 0 810 820 830 840
             {[ 0x20 := 820 ]} EmptyString world_unnamed);
      solve [vm_compute; reflexivity | discriminate].
Defined.

(** X12. In either build and for any arguments the replacement function
    stores nothing and changes no protection: memory, page protections,
    host objects, last-error code and game version are as before, and it
    writes at most one log line. *)
Theorem replacement_footprint (debug : bool) (rz pOccupant unknown : Z) (w : World) :
  let r := IsOccupantTooSmallForDemolitionAnimation debug rz pOccupant unknown w in
  mem (snd r) = mem w /\ pages (snd r) = pages w /\ heap (snd r) = heap w
  /\ last_error (snd r) = last_error w /\ game_version (snd r) = game_version w
  /\ List.filter is_store (trace_since w (snd r)) = []
  /\ List.filter is_protect (trace_since w (snd r)) = []
  /\ (length (List.filter is_log (trace_since w (snd r))) <= 1)%nat.
Proof.
  intros r. subst r.
  destruct (replacement_state debug rz pOccupant unknown w) as (d & Hs & Hd & Hlen).
  rewrite Hs. erewrite trace_since_app by reflexivity. cbn [mem pages heap last_error game_version].
  repeat split; try reflexivity; try exact Hlen.
  - apply (filter_none _ _ _ Hd). intros [] Hx; try reflexivity; discriminate Hx.
  - apply (filter_none _ _ _ Hd). intros [] Hx; try reflexivity; discriminate Hx.
Qed.
